(** * Record store of the LLview data-access scrapers

    Shallow embedding of the record model shared by
    [da/rms/Prometheus/prometheus.py] (class [Info]),
    [da/rms/gitlab/gitlab.py] (class [BenchRepo]) and
    [da/rms/files/files.py] ([FileParser], [OutputAggregator]). *)

From Stdlib Require Import String Ascii ZArith List Lia.
From Stdlib Require PrimFloat Uint63 SpecFloat FloatAxioms.
From stdpp Require Import base gmap.
From Stdlib Require Import Sorted.

Open Scope string_scope.
#[local] Set Warnings "-register-all".  (* nested inductive over prod *)

(** ** Python dictionaries

    A Python [dict] keeps insertion order: it is an association list
    whose keys are pairwise distinct. *)

Module PyDict.

Section Ops.
Context {A : Type}.

(** [d.get(k)] *)
Fixpoint dget (d : list (string * A)) (k : string) : option A :=
  match d with
  | [] => None
  | (k', v) :: d' => if String.eqb k k' then Some v else dget d' k
  end.

(** [k in d] *)
Definition dmem (d : list (string * A)) (k : string) : bool :=
  match dget d k with Some _ => true | None => false end.

(** [d[k] = v]: an existing key keeps its position, a new key is appended. *)
Fixpoint dset (d : list (string * A)) (k : string) (v : A) : list (string * A) :=
  match d with
  | [] => [(k, v)]
  | (k', v') :: d' =>
      if String.eqb k k' then (k', v) :: d' else (k', v') :: dset d' k v
  end.

(** [del d[k]]: [None] stands for the [KeyError] raised on a missing key. *)
Fixpoint ddel (d : list (string * A)) (k : string) : option (list (string * A)) :=
  match d with
  | [] => None
  | (k', v') :: d' =>
      if String.eqb k k' then Some d'
      else match ddel d' k with
           | Some d'' => Some ((k', v') :: d'')
           | None => None
           end
  end.

(** [d1 |= d2] *)
Definition dunion (d1 d2 : list (string * A)) : list (string * A) :=
  fold_left (fun acc kv => dset acc (fst kv) (snd kv)) d2 d1.

End Ops.

End PyDict.

Import PyDict.

(** ** Deep merge: [Info.add] and [Info.__add__] (prometheus.py)

    [Info.add] mutates the dictionary objects of [self._dict] in place and
    may redirect its writes to [self._dict] itself, so the objects of the
    receiving store live in a heap of dictionary objects, addressed by
    locations.  The merged-in mapping [to_add] is only read (its values
    are [deepcopy]'d) and is a plain tree. *)

Module Merge.

(** A value of the merged-in tree: a scalar or a nested dict. *)
Inductive val : Type :=
| VStr (s : string)
| VInt (z : Z)
| VNone
| VDict (kvs : list (string * val)).

Definition loc := nat.

(** A value stored in a heap dictionary: a scalar or a reference to a
    dictionary object. *)
Inductive pval : Type :=
| PStr (s : string)
| PInt (z : Z)
| PNone
| PRef (l : loc).

Definition pdict := list (string * pval).

Record heap : Type := mkHeap { objs : gmap loc pdict; next : loc }.

Definition hget (h : heap) (l : loc) : pdict :=
  match objs h !! l with Some d => d | None => [] end.

Definition hset (h : heap) (l : loc) (d : pdict) : heap :=
  mkHeap (<[l := d]> (objs h)) (next h).

Definition halloc (h : heap) (d : pdict) : loc * heap :=
  (next h, mkHeap (<[next h := d]> (objs h)) (S (next h))).

(** [copy.deepcopy(v)]: every nested dict becomes a fresh object. *)
Fixpoint deepcopy (v : val) (h : heap) : pval * heap :=
  match v with
  | VStr s => (PStr s, h)
  | VInt z => (PInt z, h)
  | VNone => (PNone, h)
  | VDict kvs =>
      let fix copy_items (kvs : list (string * val)) (h : heap)
          : pdict * heap :=
        match kvs with
        | [] => ([], h)
        | (k, v) :: kvs' =>
            let '(pv, h1) := deepcopy v h in
            let '(d, h2) := copy_items kvs' h1 in
            ((k, pv) :: d, h2)
        end in
      let '(d, h1) := copy_items kvs h in
      let '(l, h2) := halloc h1 d in
      (PRef l, h2)
  end.

(** [if not add_to: add_to = self._dict]: [None] and an empty dict are
    both falsy, so both select the root [self._dict]. *)
Definition target (root : loc) (add_to : option loc) (h : heap) : loc :=
  match add_to with
  | None => root
  | Some l => match hget h l with [] => root | _ => l end
  end.

(** The body of [Info.add] once [add_to] is resolved to the object [tgt]:
    the loop [for bk, bv in to_add.items()], the mapping [to_add] being
    given as [VDict to_add]. *)
Fixpoint add_into (root tgt : loc) (v : val) (h : heap) {struct v} : heap :=
  match v with
  | VDict to_add =>
      let fix loop (items : list (string * val)) (h : heap) : heap :=
        match items with
        | [] => h
        | (bk, bv) :: rest =>
            let h' :=
              match dget (hget h tgt) bk, bv with
              | Some (PRef av), VDict _ =>
                  (* self.add(bv, add_to=av) *)
                  add_into root (target root (Some av) h) bv h
              | _, _ =>
                  (* add_to[bk] = deepcopy(bv) *)
                  let '(pv, h1) := deepcopy bv h in
                  hset h1 tgt (dset (hget h1 tgt) bk pv)
              end in
            loop rest h'
        end in
      loop to_add h
  | _ => h
  end.

(** [Info.add(to_add, add_to)], [root] being the object [self._dict]. *)
Definition add (root : loc) (to_add : list (string * val)) (add_to : option loc)
  (h : heap) : heap :=
  add_into root (target root add_to h) (VDict to_add) h.

(** [Info.__add__]: [first._raw |= second._raw; first.add(second._dict)].
    The raw part is a separate dictionary; the result store is the
    object [first._dict]. *)
Record info : Type := mkInfo { raw : list (string * val); dict_root : loc }.

Definition info_add (first : info) (second_raw second_dict : list (string * val))
  (h : heap) : info * heap :=
  (mkInfo (dunion (raw first) second_raw) (dict_root first),
   add (dict_root first) second_dict None h).

(** Reading a heap object back as a tree ([fuel] bounds the depth). *)
Fixpoint read (fuel : nat) (h : heap) (l : loc) : val :=
  match fuel with
  | O => VDict []
  | S f =>
      VDict (map (fun kv => (fst kv,
                   match snd kv with
                   | PStr s => VStr s
                   | PInt z => VInt z
                   | PNone => VNone
                   | PRef l' => read f h l'
                   end)) (hget h l))
  end.

End Merge.

(** Deep merge as the spec words it ("if both values at a given path are
    mappings, merge recursively; otherwise the incoming value replaces the
    existing one"), on trees; the reference [Merge.add] is compared with. *)

Module MergeSpec.
Import Merge.

Fixpoint merge_spec (a b : val) {struct b} : val :=
  match a, b with
  | VDict ad, VDict bd =>
      let fix loop (acc : list (string * val)) (items : list (string * val)) :=
        match items with
        | [] => acc
        | (k, bv) :: rest =>
            let nv := match dget acc k with
                      | Some av => merge_spec av bv
                      | None => bv
                      end in
            loop (dset acc k nv) rest
        end in
      VDict (loop ad bd)
  | _, _ => b
  end.

End MergeSpec.

(** ** Regular expressions ([re] module)

    The fragment of Python's [re] syntax the configurations use: literal
    characters, [.], escaped punctuation, grouping, [|] and the postfix
    quantifiers [*], [+], [?].  Matching is decided with Brzozowski
    derivatives; for this fragment Python's backtracking search succeeds
    exactly when some match exists, which is what the derivative matcher
    decides. *)

Module Regex.

Inductive regex : Type :=
| RNull
| REps
| RChr (c : ascii)
| RAny
| RCat (r1 r2 : regex)
| RAlt (r1 r2 : regex)
| RStar (r : regex).

Definition newline : ascii := Ascii.ascii_of_nat 10.

(** The language of a regex; [.] matches any character but a newline. *)
Inductive lang : regex -> list ascii -> Prop :=
| LEps : lang REps []
| LChr c : lang (RChr c) [c]
| LAny c : c <> newline -> lang RAny [c]
| LCat r1 r2 w1 w2 : lang r1 w1 -> lang r2 w2 -> lang (RCat r1 r2) (w1 ++ w2)
| LAltL r1 r2 w : lang r1 w -> lang (RAlt r1 r2) w
| LAltR r1 r2 w : lang r2 w -> lang (RAlt r1 r2) w
| LStar0 r : lang (RStar r) []
| LStarS r w1 w2 : lang r w1 -> lang (RStar r) w2 -> lang (RStar r) (w1 ++ w2).

Fixpoint nullable (r : regex) : bool :=
  match r with
  | RNull | RChr _ | RAny => false
  | REps | RStar _ => true
  | RCat r1 r2 => nullable r1 && nullable r2
  | RAlt r1 r2 => nullable r1 || nullable r2
  end.

Fixpoint deriv (c : ascii) (r : regex) : regex :=
  match r with
  | RNull | REps => RNull
  | RChr d => if Ascii.eqb c d then REps else RNull
  | RAny => if Ascii.eqb c newline then RNull else REps
  | RCat r1 r2 =>
      if nullable r1 then RAlt (RCat (deriv c r1) r2) (deriv c r2)
      else RCat (deriv c r1) r2
  | RAlt r1 r2 => RAlt (deriv c r1) (deriv c r2)
  | RStar r1 => RCat (deriv c r1) (RStar r1)
  end.

(** Some prefix of [w] is in the language of [r]. *)
Fixpoint match_prefix (r : regex) (w : list ascii) : bool :=
  nullable r || match w with [] => false | c :: w' => match_prefix (deriv c r) w' end.

(** Some factor of [w] is in the language of [r]. *)
Fixpoint search_from (r : regex) (w : list ascii) : bool :=
  match_prefix r w || match w with [] => false | _ :: w' => search_from r w' end.

(** [re.match(r, s)] is truthy: a match anchored at the start of [s]. *)
Definition re_match (r : regex) (s : string) : bool :=
  match_prefix r (list_ascii_of_string s).

(** [re.search(r, s)] is truthy: a match anywhere in [s]. *)
Definition re_search (r : regex) (s : string) : bool :=
  search_from r (list_ascii_of_string s).

(** *** Pattern syntax *)

Definition special (c : ascii) : bool :=
  existsb (Ascii.eqb c) (list_ascii_of_string "()|*+?.[]{}^$\").

Definition is_alnum (c : ascii) : bool :=
  let n := nat_of_ascii c in
  ((48 <=? n) && (n <=? 57) || (65 <=? n) && (n <=? 90) || (97 <=? n) && (n <=? 122))%nat.

(** A postfix quantifier after an atom: one of [*], [+], [?], optionally
    followed by [?] (the lazy form, which matches the same strings).  A
    further [*], [+] or [?] is left to [p_atom], which refuses it, as
    Python refuses "a**" or "a?*" ([re.error]: multiple repeat) and "a*+"
    (possessive repeat, outside the fragment). *)
Definition quantify (r : regex) (w : list ascii) : regex * list ascii :=
  let lazy w' := match w' with "?"%char :: w'' => w'' | _ => w' end in
  match w with
  | c :: w' =>
      if Ascii.eqb c "*"%char then (RStar r, lazy w')
      else if Ascii.eqb c "+"%char then (RCat r (RStar r), lazy w')
      else if Ascii.eqb c "?"%char then (RAlt r REps, lazy w')
      else (r, w)
  | [] => (r, w)
  end.

(** Recursive descent: [p_alt] parses [cat ('|' cat)*], [p_cat] a
    sequence of quantified atoms; [None] for syntax outside the fragment. *)
Fixpoint p_alt (fuel : nat) (w : list ascii) : option (regex * list ascii) :=
  match fuel with
  | O => None
  | S f =>
      match p_cat f w with
      | Some (r, "|"%char :: w') =>
          match p_alt f w' with
          | Some (r', w'') => Some (RAlt r r', w'')
          | None => None
          end
      | res => res
      end
  end
with p_cat (fuel : nat) (w : list ascii) : option (regex * list ascii) :=
  match fuel with
  | O => None
  | S f =>
      match w with
      | [] => Some (REps, [])
      | c :: w' =>
          if Ascii.eqb c "|"%char || Ascii.eqb c ")"%char then Some (REps, w)
          else match p_atom f w with
               | Some (a, w1) =>
                   let '(a', w2) := quantify a w1 in
                   match p_cat f w2 with
                   | Some (r, w3) => Some (RCat a' r, w3)
                   | None => None
                   end
               | None => None
               end
      end
  end
with p_atom (fuel : nat) (w : list ascii) : option (regex * list ascii) :=
  match fuel with
  | O => None
  | S f =>
      match w with
      | "("%char :: w' =>
          match p_alt f w' with
          | Some (r, ")"%char :: w'') => Some (r, w'')
          | _ => None
          end
      | "."%char :: w' => Some (RAny, w')
      | "\"%char :: c :: w' =>
          if is_alnum c then None else Some (RChr c, w')
      | c :: w' => if special c then None else Some (RChr c, w')
      | [] => None
      end
  end.

(** [re.compile(pattern)]; [None] where Python would raise [re.error] or
    the pattern lies outside the modelled fragment. *)
Definition compile (pattern : string) : option regex :=
  let w := list_ascii_of_string pattern in
  match p_alt (3 * length w + 3) w with
  | Some (r, []) => Some r
  | _ => None
  end.

End Regex.

(** ** Flat records: filtering, [add_value], [modify] *)

Module Store.
Import Regex.

(** Field values of a record. *)
Inductive scalar : Type :=
| SStr (s : string)
| SInt (z : Z)
| SNone.

Definition record := list (string * scalar).
Definition store := list (string * record).

(** Python exceptions the operations can raise; [OtherError] stands for
    any other exception class (raised by a callee the code does not
    catch). *)
Inductive exn : Type :=
| KeyError | TypeError | ReError | ValueError | FileNotFoundError | OtherError.

Inductive res (A : Type) : Type :=
| Ok (a : A)
| Err (e : exn).
Arguments Ok {A} a.
Arguments Err {A} e.

Definition bind {A B} (m : res A) (k : A -> res B) : res B :=
  match m with Ok a => k a | Err e => Err e end.

Notation "'let*' x := m 'in' k" := (bind m (fun x => k))
  (at level 200, x name, m at level 100, k at level 200).

(** *** [check_unit] and [apply_pattern]

    A rule of the configuration: a string, a list whose items are strings
    or dicts, or a dict from field names to a string or a list of strings. *)
Inductive rule_val : Type :=
| RVStr (p : string)
| RVList (ps : list string).

Inductive list_item : Type :=
| LStr (p : string)
| LDict (d : list (string * rule_val)).

Inductive pattern : Type :=
| PatStr (p : string)
| PatList (items : list list_item)
| PatDict (d : list (string * rule_val)).

(** Truthiness of the [exclude] / [include] argument. *)
Definition truthy (p : pattern) : bool :=
  match p with
  | PatStr s => negb (String.eqb s "")
  | PatList l => negb (Nat.eqb (length l) 0)
  | PatDict d => negb (Nat.eqb (length d) 0)
  end.

Section CheckUnit.
(** [refn] is [re.match] (prometheus.py) or [re.search] (gitlab.py). *)
Variable refn : regex -> string -> bool.

(** [refn(pat, s)]: the pattern is compiled first, then the subject must
    be a string. *)
Definition py_re (pat : string) (subject : scalar) : res bool :=
  match compile pat with
  | None => Err ReError
  | Some r =>
      match subject with
      | SStr s => Ok (refn r s)
      | _ => Err TypeError
      end
  end.

(** [(key in unit) and refn(v, unit[key])] *)
Definition field_rule (unit : record) (key v : string) : res bool :=
  match dget unit key with
  | None => Ok false
  | Some x => py_re v x
  end.

(** [for v in value: if (key in unit) and refn(v, unit[key]): return True] *)
Fixpoint any_res {A} (f : A -> res bool) (l : list A) : res bool :=
  match l with
  | [] => Ok false
  | x :: l' => let* b := f x in if b then Ok true else any_res f l'
  end.

Definition dict_rule (unit : record) (kv : string * rule_val) : res bool :=
  match snd kv with
  | RVStr v => field_rule unit (fst kv) v
  | RVList vs => any_res (field_rule unit (fst kv)) vs
  end.

Definition item_rule (unitname : string) (unit : record) (it : list_item) : res bool :=
  match it with
  | LStr pat => py_re pat (SStr unitname)
  | LDict d => any_res (dict_rule unit) d
  end.

(** [check_unit(unitname, unit, pattern)] *)
Definition check_unit (unitname : string) (unit : record) (p : pattern) : res bool :=
  match p with
  | PatStr pat => py_re pat (SStr unitname)
  | PatList items => any_res (item_rule unitname unit) items
  | PatDict d => any_res (dict_rule unit) d
  end.

End CheckUnit.

(** [Info.check_unit] (prometheus.py) uses [re.match]. *)
Definition prom_check_unit := check_unit re_match.
(** [BenchRepo.check_unit] (gitlab.py) uses [re.search]. *)
Definition gitlab_check_unit := check_unit re_search.

(** The body of the [for unitname, unit in self._dict.items()] loop of
    [Info.apply_pattern]: the names it appends to [to_remove]. *)
Definition prom_marks (exclude include : pattern) (unitname : string) (unit : record)
  : res (list string) :=
  let* ex := (if truthy exclude then prom_check_unit unitname unit exclude else Ok false) in
  let* inc := (if truthy include then prom_check_unit unitname unit include else Ok true) in
  Ok ((if ex then [unitname] else []) ++ (if inc then [] else [unitname]))%list.

Fixpoint collect (f : string -> record -> res (list string)) (d : store)
  : res (list string) :=
  match d with
  | [] => Ok []
  | (k, u) :: d' => let* l1 := f k u in let* l2 := collect f d' in Ok (l1 ++ l2)%list
  end.

(** [for unitname in to_remove: del self._dict[unitname]] *)
Fixpoint del_all (d : store) (ks : list string) : res store :=
  match ks with
  | [] => Ok d
  | k :: ks' =>
      match ddel d k with
      | Some d' => del_all d' ks'
      | None => Err KeyError
      end
  end.

(** [Info.apply_pattern(exclude, include)] on [self._dict]. *)
Definition prom_apply_pattern (exclude include : pattern) (d : store) : res store :=
  let* to_remove := collect (prom_marks exclude include) d in
  del_all d to_remove.

(** [BenchRepo.apply_pattern] on a dict: [to_remove] is a set. *)
Definition set_add (s : list string) (k : string) : list string :=
  if existsb (String.eqb k) s then s else (s ++ [k])%list.

Definition gitlab_marks (exclude include : pattern) (unitname : string) (unit : record)
  : res (list string) :=
  let* ex := (if truthy exclude then gitlab_check_unit unitname unit exclude else Ok false) in
  let* inc := (if truthy include then gitlab_check_unit unitname unit include else Ok true) in
  Ok ((if ex then [unitname] else []) ++ (if inc then [] else [unitname]))%list.

Definition gitlab_apply_pattern (exclude include : pattern) (d : store) : res store :=
  let* to_remove := collect (gitlab_marks exclude include) d in
  del_all d (fold_left set_add to_remove []).

(** *** [add_value] *)

(** [dict[key] = value if value != "(null)" else ""] *)
Definition add_value (key : string) (value : scalar) (d : record) : record :=
  dset d key (match value with
              | SStr s => if String.eqb s "(null)" then SStr "" else value
              | _ => value
              end).

(** *** [Info.modify] (prometheus.py)

    [globals()] is the registry of module-level functions; a function may
    itself raise, which is the [res] of its result. *)
Definition registry := list (string * (scalar -> res scalar)).

Inductive modify_spec : Type :=
| MStr (names : string)            (* "f, g" : split on ',' and stripped *)
| MList (names : list string).

(** [str.split(',')] followed by [strip()] of each part. *)
Fixpoint split_comma (w : list ascii) (cur : list ascii) : list (list ascii) :=
  match w with
  | [] => [rev cur]
  | c :: w' => if Ascii.eqb c ","%char then rev cur :: split_comma w' []
              else split_comma w' (c :: cur)
  end.

(** [str.isspace()] of one character, the characters read as the code
    points 0 to 255: tab, line feed, vertical tab, form feed, carriage
    return, the separators 28 to 31, space, next line (133) and no-break
    space (160). *)
Definition is_space (c : ascii) : bool :=
  let n := nat_of_ascii c in
  ((9 <=? n) && (n <=? 13) || (28 <=? n) && (n <=? 32) || Nat.eqb n 133 || Nat.eqb n 160)%nat.

Fixpoint lstrip (w : list ascii) : list ascii :=
  match w with
  | c :: w' => if is_space c then lstrip w' else w
  | [] => []
  end.

Definition strip (w : list ascii) : list ascii := rev (lstrip (rev (lstrip w))).

Definition func_names (m : modify_spec) : list string :=
  match m with
  | MStr s => map (fun w => string_of_list_ascii (strip w))
                  (split_comma (list_ascii_of_string s) [])
  | MList l => l
  end.

(** [try: func = globals()[funcname]; item[key] = func(item[key])
     except KeyError: <log and keep the value>]; any other exception of
    [func] propagates. *)
Definition apply_func (g : registry) (item : record) (key fname : string)
  : res record :=
  match dget g fname with
  | None => Ok item
  | Some func =>
      match dget item key with
      | None => Ok item
      | Some v =>
          match func v with
          | Ok v' => Ok (dset item key v')
          | Err KeyError => Ok item
          | Err e => Err e
          end
      end
  end.

Fixpoint fold_res {A B} (f : A -> B -> res A) (a : A) (l : list B) : res A :=
  match l with
  | [] => Ok a
  | x :: l' => let* a' := f a x in fold_res f a' l'
  end.

Definition modify_item (g : registry) (modify_dict : list (string * modify_spec))
  (item : record) : res record :=
  fold_res (fun item kv =>
              if dmem item (fst kv)
              then fold_res (fun it fname => apply_func g it (fst kv) fname)
                            item (func_names (snd kv))
              else Ok item)
           item modify_dict.

(** [Info.modify(modify_dict)] on every record of [self._dict]. *)
Fixpoint modify (g : registry) (modify_dict : list (string * modify_spec)) (d : store)
  : res store :=
  match d with
  | [] => Ok []
  | (k, item) :: d' =>
      let* item' := modify_item g modify_dict item in
      let* d'' := modify g modify_dict d' in
      Ok ((k, item') :: d'')
  end.

End Store.

(** ** Rendering to LML *)

Module Lml.
Import Store.

(** *** String formatting *)

Definition dq : string := String (ascii_of_nat 34) EmptyString.
Definition sq : string := String (ascii_of_nat 39) EmptyString.
Definition nl : string := String (ascii_of_nat 10) EmptyString.

(** Decimal digits of a positive number; [fuel] is its bit length,
    which bounds the number of decimal digits. *)
Fixpoint pos_digits (fuel : nat) (n : Z) (acc : string) : string :=
  match fuel with
  | O => acc
  | S f =>
      let d := String (ascii_of_nat (48 + Z.to_nat (n mod 10))) EmptyString in
      if (n <? 10)%Z then d ++ acc else pos_digits f (n / 10) (d ++ acc)
  end.

Definition nat_str (n : Z) : string := pos_digits (Z.to_nat (Z.log2 n) + 1) n EmptyString.

(** [str(z)] for an integer. *)
Definition int_str (z : Z) : string :=
  if (z <? 0)%Z then "-" ++ nat_str (- z) else nat_str z.

Fixpoint repeat_char (c : ascii) (n : nat) : string :=
  match n with O => EmptyString | S n' => String c (repeat_char c n') end.

(** [f"{i:0{w}d}"]: zero padding up to a minimum width [w]. *)
Definition zfill (w : nat) (i : Z) : string :=
  if (i <? 0)%Z
  then let s := nat_str (- i) in "-" ++ repeat_char "0"%char (w - 1 - String.length s) ++ s
  else let s := nat_str i in repeat_char "0"%char (w - String.length s) ++ s.

(** ["{:24s}".format(s)]: left aligned, padded with spaces to 24. *)
Definition ljust24 (s : string) : string := s ++ repeat_char " "%char (24 - String.length s).

(** [str(v)] / [f"{v}"] of a field value. *)
Definition py_str (v : scalar) : string :=
  match v with
  | SStr s => s
  | SInt z => int_str z
  | SNone => "None"
  end.

(** [s.replace(old, new)] for a one-character [old]. *)
Fixpoint replace_char (c : ascii) (new : string) (s : string) : string :=
  match s with
  | EmptyString => EmptyString
  | String c' s' =>
      if Ascii.eqb c c' then new ++ replace_char c new s'
      else String c' (replace_char c new s')
  end.

Definition quote_char : ascii := ascii_of_nat 34.

(** [sub in s] for strings. *)
Fixpoint contains (sub s : string) : bool :=
  String.prefix sub s ||
  match s with EmptyString => false | String _ s' => contains sub s' end.

(** [int(math.log10(n))] for [n >= 1], i.e. the floor of the decimal
    logarithm.  (For [n] below [10^15] the double-precision [log10]
    rounds to a value with the same integer part.) *)
Fixpoint log10_floor_aux (fuel : nat) (n : Z) : nat :=
  match fuel with
  | O => O
  | S f => if (n <? 10)%Z then O else S (log10_floor_aux f (n / 10))
  end.

Definition log10_floor (n : Z) : nat := log10_floor_aux (Z.to_nat (Z.log2 n) + 1) n.

(** [digits = int(math.log10(len(d)))+1 if len(d)>0 else 1] *)
Definition lml_digits (n : nat) : nat :=
  if (0 <? n)%nat then log10_floor (Z.of_nat n) + 1 else 1.

(** *** [Info.to_LML] (prometheus.py) *)

Definition preamble : list string :=
  [ "<?xml version=" ++ dq ++ "1.0" ++ dq ++ " encoding=" ++ dq ++ "UTF-8" ++ dq ++ "?>" ++ nl;
    "<lml:lgui xmlns:lml=" ++ dq ++ "http://eclipse.org/ptp/lml" ++ dq
      ++ " xmlns:xsi=" ++ dq ++ "http://www.w3.org/2001/XMLSchema-instance" ++ dq ++ nl;
    "    xsi:schemaLocation=" ++ dq
      ++ "http://eclipse.org/ptp/lml http://eclipse.org/ptp/schemas/v1.1/lgui.xsd" ++ dq ++ nl;
    "    version=" ++ dq ++ "1.1" ++ dq ++ ">" ++ nl ].

(** [i = 700 if "percore" in filename else 0] *)
Definition start_counter (filename : string) : Z :=
  if contains "percore" filename then 700%Z else 0%Z.

(** [item[k]], raising [KeyError] when absent. *)
Definition getitem (item : record) (k : string) : res scalar :=
  match dget item k with Some v => Ok v | None => Err KeyError end.

(** One iteration of the objects loop: assigns a missing [__id]. *)
Definition assign_id (prefix : string) (digits : nat) (i : Z) (item : record)
  : res (record * Z) :=
  if dmem item "__id" then Ok (item, i)
  else
    let* p := (if String.eqb prefix EmptyString
               then bind (getitem item "__prefix") (fun v => Ok (py_str v))
               else Ok prefix) in
    Ok (dset item "__id" (SStr (p ++ zfill digits i)), (i + 1)%Z).

Definition object_line (id name ty : string) : string :=
  "<object id=" ++ dq ++ id ++ dq ++ " name=" ++ dq ++ name ++ dq
  ++ " type=" ++ dq ++ ty ++ dq ++ "/>" ++ nl.

(** The loop [for key, item in self._dict.items()] of the objects
    section: the lines written and the store with the assigned ids. *)
Fixpoint objects_pass (prefix stype : string) (digits : nat) (i : Z) (d : store)
  : res (list string * store) :=
  match d with
  | [] => Ok ([], [])
  | (key, item) :: d' =>
      bind (assign_id prefix digits i item) (fun '(item', i') =>
      let* id := getitem item' "__id" in
      let* ty := (if String.eqb stype EmptyString
                  then bind (getitem item' "__type") (fun v => Ok (py_str v))
                  else Ok stype) in
      bind (objects_pass prefix stype digits i' d') (fun '(lines, d'') =>
      Ok (object_line (py_str id) key ty :: lines, (key, item') :: d'')))
  end.

Definition data_line (key value : string) : string :=
  " <data key=" ++ ljust24 (dq ++ key ++ dq) ++ " value=" ++ dq ++ value ++ dq ++ "/>" ++ nl.

(** The inner loop [for key, value in item.items()] of the information
    section. *)
Definition prom_data_lines (item : record) : list string :=
  flat_map (fun kv =>
    let '(key, value) := kv in
    if String.prefix "__nelems" key then [data_line (substring 2 (String.length key - 2) key) (py_str value)]
    else if String.prefix "__" key then []
    else match value with
         | SStr s => if String.eqb s EmptyString then []
                     else [data_line key (replace_char quote_char sq s)]
         | _ => [data_line key (py_str value)]
         end) item.

Definition prom_info_block (item : record) : res (list string) :=
  let* id := getitem item "__id" in
  Ok (("<info oid=" ++ dq ++ py_str id ++ dq ++ " type=" ++ dq ++ "short" ++ dq ++ ">" ++ nl)
      :: app (prom_data_lines item) ["</info>" ++ nl]).

Fixpoint info_pass (blk : record -> res (list string)) (d : store) : res (list string) :=
  match d with
  | [] => Ok []
  | (_, item) :: d' =>
      let* b := blk item in let* rest := info_pass blk d' in Ok (app b rest)
  end.

Definition slash : ascii := "/"%char.

Fixpoint drop_while (p : ascii -> bool) (w : list ascii) : list ascii :=
  match w with
  | c :: w' => if p c then drop_while p w' else w
  | [] => []
  end.

(** [os.path.dirname(p)] (posixpath): [head = p[:p.rfind('/')+1]], then
    [head.rstrip('/')] unless [head] is empty or made of slashes only. *)
Definition dirname (p : string) : string :=
  let head := rev (drop_while (fun c => negb (Ascii.eqb c slash)) (rev (list_ascii_of_string p))) in
  if negb (Nat.eqb (length head) 0) && negb (forallb (fun c => Ascii.eqb c slash) head)
  then string_of_list_ascii (rev (drop_while (fun c => Ascii.eqb c slash) (rev head)))
  else string_of_list_ascii head.

(** [os.makedirs(path, exist_ok=True)]: the empty path raises
    [FileNotFoundError].  The file system itself is not modelled: a
    non-empty path is taken to be creatable, and the file opened with
    [open(filename, "w")] to be writable. *)
Definition makedirs (path : string) : res unit :=
  if String.eqb path EmptyString then Err FileNotFoundError else Ok tt.

(** [Info.to_LML(filename, prefix, stype)]: the strings written to the file
    and the store [self._dict] afterwards (the ids are stored in it). *)
Definition to_LML (filename prefix stype : string) (d : store) : res (list string * store) :=
  let* _ := makedirs (dirname filename) in
  bind (objects_pass prefix stype (lml_digits (length d)) (start_counter filename) d)
       (fun '(objs, d') =>
  let* infos := info_pass prom_info_block d' in
  Ok (concat [preamble; ["<objects>" ++ nl]; objs; ["</objects>" ++ nl];
              ["<information>" ++ nl]; infos;
              ["</information>" ++ nl; "</lml:lgui>" ++ nl]], d')).




(** [isinstance(value, str) and value == ""] *)
Definition scalar_is_empty (v : scalar) : bool :=
  match v with SStr s => String.eqb s EmptyString | _ => false end.

(** The [value] attribute [Info.to_LML] writes for a field value. *)
Definition prom_value (v : scalar) : string :=
  match v with SStr s => replace_char quote_char sq s | _ => py_str v end.

(** *** [OutputAggregator._perform_lml_write] (files.py) *)

(** Python truthiness of [item.get(k)]. *)
Definition truthy_get (item : record) (k : string) : bool :=
  match dget item k with
  | Some (SStr s) => negb (String.eqb s EmptyString)
  | Some (SInt z) => negb (Z.eqb z 0)
  | Some SNone | None => false
  end.

Definition is_pstat (item : record) : bool :=
  match dget item "__type" with Some (SStr s) => String.eqb s "pstat" | _ => false end.

Fixpoint files_objects_pass (id_prefix default_type : string) (digits : nat) (i : Z)
  (d : store) : list string * store :=
  match d with
  | [] => ([], [])
  | (name, item) :: d' =>
      let '(current_id, item', i') :=
        if truthy_get item "__id" then
          (match dget item "__id" with Some v => py_str v | None => EmptyString end, item, i)
        else if negb (is_pstat item) then
          let cid := id_prefix ++ zfill digits (i + 1) in
          (cid, dset item "__id" (SStr cid), (i + 1)%Z)
        else ("error_id_" ++ name, item, i) in
      let obj_type := match dget item' "__type" with
                      | Some v => py_str v | None => default_type end in
      let '(lines, d'') := files_objects_pass id_prefix default_type digits i' d' in
      (("  <object id=" ++ dq ++ current_id ++ dq ++ " name=" ++ dq ++ name ++ dq
        ++ " type=" ++ dq ++ obj_type ++ dq ++ "/>" ++ nl) :: lines,
       (name, item') :: d'')
  end.

Definition files_data_line (key value : string) : string :=
  "   <data key=" ++ dq ++ key ++ dq ++ " value=" ++ dq ++ value ++ dq ++ "/>" ++ nl.

Definition files_data_lines (item : record) : list string :=
  flat_map (fun kv =>
    let '(key, value) := kv in
    if String.prefix "__nelems" key then [files_data_line key (py_str value)]
    else if String.prefix "__" key then []
    else match value with
         | SNone => []
         | SStr s => [files_data_line key (replace_char quote_char "&quot;" s)]
         | _ => [files_data_line key (py_str value)]
         end) item.

(** The [value] attribute [_perform_lml_write] writes for a field value. *)
Definition files_value (v : scalar) : string :=
  match v with SStr s => replace_char quote_char "&quot;" s | _ => py_str v end.

Definition files_info_block (name : string) (item : record) : list string :=
  let oid := match dget item "__id" with
             | Some v => py_str v | None => "error_missing_id_for_" ++ name end in
  ("  <info oid=" ++ dq ++ oid ++ dq ++ " type=" ++ dq ++ "short" ++ dq ++ ">" ++ nl)
  :: app (files_data_lines item) ["  </info>" ++ nl].

(** [_perform_lml_write(filename, data_dict, id_prefix_cfg, default_type_cfg)]:
    the strings written and [data_dict] afterwards. *)
Definition perform_lml_write (d : store) (id_prefix default_type : string)
  : list string * store :=
  let n := length (List.filter (fun kv => negb (is_pstat (snd kv))) d) in
  let '(objs, d') := files_objects_pass id_prefix default_type (lml_digits n) 0%Z d in
  (concat [preamble; ["<objects>" ++ nl]; objs; ["</objects>" ++ nl];
           ["<information>" ++ nl];
           flat_map (fun kv => files_info_block (fst kv) (snd kv)) d';
           ["</information>" ++ nl ++ "</lml:lgui>" ++ nl]], d').

End Lml.

(** ** files.py: transformations and file-mode aggregation *)

Module Files.
Import Store.

(** *** [FileParser.process_transformed_records]: the transformation phase *)

(** A module-level name looked up with [globals().get(name)]: a function
    (returning [None] when it raises) or some non-callable object. *)
Inductive pyobj : Type :=
| PyFunc (f : scalar -> option scalar)
| PyOther.

Definition globals := list (string * pyobj).

(** A compiled metric definition: the metric keys it defines (its [name], or
    the named groups of its regex) and its [apply] configuration. *)
Record metric_def : Type := mkMetric {
  m_keys : list string;
  m_apply : list (string * string)
}.

(** The inner loop [for metric_key in metric_keys_in_def]; [None] when the
    record is dropped ([keep_this_record_overall = False; break]). *)
Fixpoint transform_keys (g : globals) (apply_config : list (string * string))
  (keys : list string) (rec : record) : option record :=
  match keys with
  | [] => Some rec
  | metric_key :: keys' =>
      match dget rec metric_key with
      | None => transform_keys g apply_config keys' rec
      | Some original_value =>
          match dget apply_config metric_key with
          | Some fname =>
              if String.eqb fname EmptyString then transform_keys g apply_config keys' rec
              else
                match dget g fname with
                | Some (PyFunc f) =>
                    match f original_value with
                    | None => None                      (* exception: dropped *)
                    | Some SNone =>
                        match original_value with
                        | SNone => transform_keys g apply_config keys' (dset rec metric_key SNone)
                        | _ => if String.eqb fname "to_timestamp" then None
                               else transform_keys g apply_config keys' (dset rec metric_key SNone)
                        end
                    | Some v => transform_keys g apply_config keys' (dset rec metric_key v)
                    end
                | _ => None                             (* not found/callable: dropped *)
                end
          | None => transform_keys g apply_config keys' rec
          end
      end
  end.

(** The loop [for m_def in self._compiled_metrics] (transformations). *)
Fixpoint transform_record (g : globals) (metrics : list metric_def) (rec : record)
  : option record :=
  match metrics with
  | [] => Some rec
  | m :: ms =>
      match m_apply m with
      | [] => transform_record g ms rec
      | apply_config =>
          match transform_keys g apply_config (m_keys m) rec with
          | Some rec' => transform_record g ms rec'
          | None => None
          end
      end
  end.

(** [process_transformed_records]: a dropped record is skipped
    ([continue]); the others go through the filter phase [filters]. *)
Fixpoint process_transformed_records (g : globals) (metrics : list metric_def)
  (filters : record -> option record) (raw_records : list record) : list record :=
  match raw_records with
  | [] => []
  | raw_rec :: rs =>
      match transform_record g metrics raw_rec with
      | None => process_transformed_records g metrics filters rs
      | Some r =>
          match filters r with
          | Some r' => r' :: process_transformed_records g metrics filters rs
          | None => process_transformed_records g metrics filters rs
          end
      end
  end.

(** *** [OutputAggregator._output_mode_file]: aggregated columns *)

(** [record.get(key, self.default_map.get(key))]; [SNone] is Python's [None]. *)
Definition get_value_with_default (default_map : record) (rec : record) (key : string)
  : scalar :=
  match dget rec key with
  | Some v => v
  | None => match dget default_map key with Some v => v | None => SNone end
  end.

(** Python's [float] values: IEEE 754 binary64 numbers (the kernel's
    primitive floats).  [x < y] on floats is [PrimFloat.ltb x y], and
    [x > y] is [y < x]; [x / n] for an [int] [n] converts [n] to a float
    first (exactly, for any list length). *)
Definition float := PrimFloat.float.

(** The float [n.0] of a natural number [n]. *)
Definition float_of_nat (n : nat) : float := PrimFloat.of_uint63 (Uint63.of_Z (Z.of_nat n)).

(** The argument of [fmt.format(arg)]: an [int], a [float] or a [str]. *)
Inductive farg : Type :=
| FInt (n : nat)
| FFloat (x : float)
| FStr (s : string).

(** The Python builtins the aggregation calls, each with the exception it
    may raise: [float(v)] on a [str] or [int] value (its value, or
    [ValueError] for a string that is not a number, [OtherError] for an
    [OverflowError]); [sum(xs)] of a non-empty list of floats; [str(x)] of
    a float; [fmt.format(arg)] (a [ValueError], [KeyError], [IndexError]
    or [TypeError] for a format that does not fit the argument). *)
Record float_ops : Type := mkFloatOps {
  py_float : scalar -> res float;
  py_sum : list float -> float;
  py_str : float -> string;
  py_format : string -> farg -> res string
}.

(** Python equality of field values. *)
Definition scalar_eqb (a b : scalar) : bool :=
  match a, b with
  | SStr x, SStr y => String.eqb x y
  | SInt x, SInt y => Z.eqb x y
  | SNone, SNone => true
  | _, _ => false
  end.

(** A column instruction with an [aggregate] key. *)
Record instruction : Type := mkInstr {
  i_aggregate : string;
  i_source : option string;
  i_unique : bool;
  i_wrap : option string
}.

(** The value put in [row[col_name]]: a string or an integer. *)
Inductive cell : Type :=
| CStr (s : string)
| CInt (n : nat).

Section Aggregate.
Variable ops : float_ops.

(** The loop [for r_idx, r_rec in enumerate(group_records)] from the
    lists [numeric_values] and the counter [non_numeric_count]: a
    [ValueError] or [TypeError] of [float(raw_val)] is caught and counted,
    any other exception leaves [_output_mode_file]. *)
Fixpoint numeric_loop (default_map : record) (metric : string) (group : list record)
  (numeric_values : list float) (non_numeric_count : nat) : res (list float * nat) :=
  match group with
  | [] => Ok (numeric_values, non_numeric_count)
  | r_rec :: rs =>
      match get_value_with_default default_map r_rec metric with
      | SNone => numeric_loop default_map metric rs numeric_values non_numeric_count
      | raw_val =>
          match py_float ops raw_val with
          | Ok x => numeric_loop default_map metric rs (app numeric_values [x]) non_numeric_count
          | Err ValueError | Err TypeError =>
              numeric_loop default_map metric rs numeric_values (S non_numeric_count)
          | Err e => Err e
          end
      end
  end.

(** [min(numeric_values)]: the current item is replaced by a later one
    that is smaller ([item < current]). *)
Definition py_min (x0 : float) (xs : list float) : float :=
  fold_left (fun cur x => if PrimFloat.ltb x cur then x else cur) xs x0.

(** [max(numeric_values)]: replaced by a later one that is larger
    ([item > current]). *)
Definition py_max (x0 : float) (xs : list float) : float :=
  fold_left (fun cur x => if PrimFloat.ltb cur x then x else cur) xs x0.

(** [try: row[col_name] = fmt.format(arg) except (ValueError, TypeError): handler] *)
Definition try_format (fmt : string) (arg : farg) (handler : res cell) : res cell :=
  match py_format ops fmt arg with
  | Ok s => Ok (CStr s)
  | Err ValueError | Err TypeError => handler
  | Err e => Err e
  end.

Definition dedup_scalars (l : list scalar) : list scalar :=
  fold_left (fun acc v => if existsb (scalar_eqb v) acc then acc else app acc [v]) l [].

(** [row[col_name]] for a column with an [aggregate] key, over the records
    of one index value; [Err] for an exception that leaves the method.
    [wrap] is truthy when it is a non-empty string. *)
Definition aggregate_column (default_map : record) (ins : instruction)
  (group : list record) : res cell :=
  match i_source ins with
  | None => Ok (CStr EmptyString)
  | Some metric =>
      if String.eqb metric EmptyString then Ok (CStr EmptyString)
      else if String.eqb (i_aggregate ins) "count" then
        let vals := map (fun r => get_value_with_default default_map r metric) group in
        let n := if i_unique ins
                 then length (List.filter (fun v => negb (scalar_eqb v SNone)) (dedup_scalars vals))
                 else length (List.filter (fun v => negb (scalar_eqb v SNone)) vals) in
        match i_wrap ins with
        | Some fmt => if String.eqb fmt EmptyString then Ok (CInt n)
                      else try_format fmt (FInt n) (Ok (CInt n))
        | None => Ok (CInt n)
        end
      else if existsb (String.eqb (i_aggregate ins)) ["min"; "max"; "avg"] then
        match numeric_loop default_map metric group [] 0%nat with
        | Err e => Err e
        | Ok (numeric_values, _) =>
            match numeric_values with
            | [] => Ok (CStr EmptyString)
            | x0 :: xs =>
                let result_val :=
                  if String.eqb (i_aggregate ins) "min" then py_min x0 xs
                  else if String.eqb (i_aggregate ins) "max" then py_max x0 xs
                  else PrimFloat.div (py_sum ops numeric_values)
                                     (float_of_nat (length numeric_values)) in
                match i_wrap ins with
                | Some fmt =>
                    if String.eqb fmt EmptyString then Ok (CStr (py_str ops result_val))
                    else try_format fmt (FFloat result_val)
                           (match py_format ops fmt (FStr (py_str ops result_val)) with
                            | Ok s => Ok (CStr s)
                            | Err e => Err e
                            end)
                | None => Ok (CStr (py_str ops result_val))
                end
            end
        end
      else Ok (CStr EmptyString)
  end.

(** The values of a group that [float] accepts, in record order, read
    from the spec's words: [None] values and values on which [float]
    raises [ValueError] or [TypeError] are skipped; any other exception of
    [float] is the first one raised in record order. *)
Fixpoint coercible_values (default_map : record) (metric : string) (group : list record)
  : res (list float) :=
  match group with
  | [] => Ok []
  | r :: rs =>
      match get_value_with_default default_map r metric with
      | SNone => coercible_values default_map metric rs
      | v =>
          match py_float ops v with
          | Ok x =>
              match coercible_values default_map metric rs with
              | Ok xs => Ok (x :: xs)
              | Err e => Err e
              end
          | Err ValueError | Err TypeError => coercible_values default_map metric rs
          | Err e => Err e
          end
      end
  end.

End Aggregate.

(** [grouped_by_index]: records in insertion order of their index value;
    records whose index value is [None] are skipped. *)
Definition group_by_index (default_map : record) (index_key : string)
  (records : list record) : list (scalar * list record) :=
  fold_left (fun groups rec =>
    match get_value_with_default default_map rec index_key with
    | SNone => groups
    | key_val =>
        if existsb (fun g => scalar_eqb (fst g) key_val) groups
        then map (fun g => if scalar_eqb (fst g) key_val then (fst g, app (snd g) [rec]) else g)
                 groups
        else app groups [(key_val, [rec])]
    end) records [].

End Files.

(** ** prometheus.py / gitlab.py: [map] and [substitute_placeholders] *)

Module InfoMore.
Import Store.

(** [Info.map(mapping_dict)] / [BenchRepo.map(mapping_dict)] on one item:
    [new_dict[unit] = {}], then [new_dict[unit][map] = item[key]] for every
    [key, map] of the mapping whose [key] is in the item, then the internal
    keys [__type], [__id] and [__prefix] copied when present. *)
Definition map_item (mapping_dict : list (string * string)) (item : record) : record :=
  let r := fold_left (fun acc km =>
                        match dget item (fst km) with
                        | None => acc
                        | Some v => dset acc (snd km) v
                        end) mapping_dict [] in
  let r := match dget item "__type" with Some v => dset r "__type" v | None => r end in
  let r := match dget item "__id" with Some v => dset r "__id" v | None => r end in
  match dget item "__prefix" with Some v => dset r "__prefix" v | None => r end.

(** [self._dict = new_dict] *)
Definition map_store (mapping_dict : list (string * string)) (d : store) : store :=
  List.map (fun ui => (fst ui, map_item mapping_dict (snd ui))) d.

Definition internal_key (k : string) : bool :=
  existsb (String.eqb k) ["__type"; "__id"; "__prefix"].

Definition lbrace : ascii := "{"%char.
Definition rbrace : ascii := "}"%char.

(** [re.sub(r'\{(.*?)\}', lambda m: values.get(m.group(1), m.group(0)),
    template)], scanned left to right.  [open_] is [Some b] after a ["{"]
    followed by [b]: the lazy group ends at the first ["}"]; since [.]
    does not match a newline, a newline (or the end of the text) before it
    means no match at that ["{"] nor at any ["{"] of [b], and the text is
    kept as it is. *)
Fixpoint subst_scan (values : list (string * string)) (open_ : option string) (t : string)
  : string :=
  match t with
  | EmptyString =>
      match open_ with None => EmptyString | Some b => String lbrace b end
  | String c t' =>
      match open_ with
      | None =>
          if Ascii.eqb c lbrace then subst_scan values (Some EmptyString) t'
          else String c (subst_scan values None t')
      | Some b =>
          if Ascii.eqb c rbrace then
            match dget values b with
            | Some v => v
            | None => String lbrace (b ++ String rbrace EmptyString)
            end ++ subst_scan values None t'
          else if Ascii.eqb c Regex.newline then
            String lbrace (b ++ String c (subst_scan values None t'))
          else subst_scan values (Some (b ++ String c EmptyString)) t'
      end
  end.

Definition substitute_placeholders (template : string) (values : list (string * string))
  : string :=
  subst_scan values None template.

End InfoMore.

(** ** gitlab.py: [BenchRepo] helpers *)

Module RepoMore.
Import Regex Store.

(** *** [BenchRepo.apply_pattern] on a list of metric dicts

    [check_unit(idx, unit, pattern)] with the position [idx] as the unit
    name: a string rule calls [re.search(pattern, idx)] on an int. *)
Definition elem_item_rule (idx : nat) (unit : record) (it : list_item) : res bool :=
  match it with
  | LStr pat => py_re re_search pat (SInt (Z.of_nat idx))
  | LDict d => any_res (dict_rule re_search unit) d
  end.

Definition check_elem (idx : nat) (unit : record) (p : pattern) : res bool :=
  match p with
  | PatStr pat => py_re re_search pat (SInt (Z.of_nat idx))
  | PatList items => any_res (elem_item_rule idx unit) items
  | PatDict d => any_res (dict_rule re_search unit) d
  end.

(** [to_remove.add(idx)] on a set of ints. *)
Definition nat_set_add (s : list nat) (x : nat) : list nat :=
  if existsb (Nat.eqb x) s then s else app s [x].

(** [for idx, unit in enumerate(elements)]: the set [to_remove]. *)
Fixpoint list_marks (exclude include : pattern) (idx : nat) (es : list record)
  (to_remove : list nat) : res (list nat) :=
  match es with
  | [] => Ok to_remove
  | unit :: es' =>
      let* ex := (if truthy exclude then check_elem idx unit exclude else Ok false) in
      let to_remove := if ex then nat_set_add to_remove idx else to_remove in
      let* inc := (if truthy include then check_elem idx unit include else Ok true) in
      let to_remove := if inc then to_remove else nat_set_add to_remove idx in
      list_marks exclude include (S idx) es' to_remove
  end.

(** [sorted(to_remove, reverse=True)] *)
Fixpoint insert_desc (x : nat) (l : list nat) : list nat :=
  match l with
  | [] => [x]
  | y :: l' => if (y <? x)%nat then x :: l else y :: insert_desc x l'
  end.

Definition sort_desc (l : list nat) : list nat := fold_right insert_desc [] l.

(** [del elements[idx]]; [None] is the [IndexError] of an index out of
    range. *)
Fixpoint del_nth {A} (l : list A) (n : nat) : option (list A) :=
  match l, n with
  | [], _ => None
  | _ :: l', O => Some l'
  | x :: l', S n' => match del_nth l' n' with Some l'' => Some (x :: l'') | None => None end
  end.

Fixpoint del_indices {A} (l : list A) (ks : list nat) : option (list A) :=
  match ks with
  | [] => Some l
  | k :: ks' => match del_nth l k with Some l' => del_indices l' ks' | None => None end
  end.

(** [BenchRepo.apply_pattern(elements, exclude, include)] for a list
    [elements]: the list afterwards ([None] inside: [IndexError]). *)
Definition apply_pattern_list (exclude include : pattern) (elements : list record)
  : res (option (list record)) :=
  let* to_remove := list_marks exclude include 0 elements [] in
  Ok (del_indices elements (sort_desc to_remove)).

(** Whether the element at [idx] is to be removed: excluded, or not
    included. *)
Definition elem_removed (exclude include : pattern) (idx : nat) (unit : record) : res bool :=
  let* ex := (if truthy exclude then check_elem idx unit exclude else Ok false) in
  let* inc := (if truthy include then check_elem idx unit include else Ok true) in
  Ok (ex || negb inc).

Fixpoint elem_flags (exclude include : pattern) (idx : nat) (es : list record)
  : res (list bool) :=
  match es with
  | [] => Ok []
  | u :: es' =>
      let* b := elem_removed exclude include idx u in
      let* bs := elem_flags exclude include (S idx) es' in
      Ok (b :: bs)
  end.

(** The elements at the positions [i >= n] where [p i] holds, in order. *)
Fixpoint keep_from {A} (p : nat -> bool) (n : nat) (l : list A) : list A :=
  match l with
  | [] => []
  | x :: l' => if p n then x :: keep_from p (S n) l' else keep_from p (S n) l'
  end.

(** The elements whose flag is [false], in order. *)
Definition keep_unflagged {A} (flags : list bool) (l : list A) : list A :=
  List.map snd (List.filter (fun p => negb (fst p)) (combine flags l)).

(** *** [BenchRepo.deep_update(target, override)]

    On trees of [Merge.val]; [None] stands for the exception raised when
    the target at some path is not a dict ([.get] or item assignment on a
    str, int or None). *)
Import Merge.

Fixpoint deep_update (target override : val) {struct override} : option val :=
  match override with
  | VDict items =>
      let fix loop (target : val) (items : list (string * val)) : option val :=
        match items with
        | [] => Some target
        | (key, value) :: rest =>
            match target with
            | VDict td =>
                match value with
                | VDict _ =>
                    let sub := match dget td key with Some x => x | None => VDict [] end in
                    match deep_update sub value with
                    | Some nv => loop (VDict (dset td key nv)) rest
                    | None => None
                    end
                | _ => loop (VDict (dset td key value)) rest
                end
            | _ => None
            end
        end in
      loop target items
  | _ => None
  end.

Definition is_dict (v : val) : bool := match v with VDict _ => true | _ => false end.

(** *** [flatten_json(json_data)] *)

(** JSON values. *)
Inductive json : Type :=
| JStr (s : string)
| JInt (z : Z)
| JNone
| JList (l : list json)
| JDict (d : list (string * json)).

(** [j[k]]: [KeyError] on a dict without [k]; [TypeError] on a list
    indexed by a string, or on a str, int or None. *)
Definition jget (j : json) (k : string) : res json :=
  match j with
  | JDict d => match dget d k with Some v => Ok v | None => Err KeyError end
  | _ => Err TypeError
  end.

(** [for x in j]: the items of a list, the keys of a dict, the characters
    of a str; [TypeError] for an int or None. *)
Definition py_iter (j : json) : res (list json) :=
  match j with
  | JList l => Ok l
  | JDict d => Ok (List.map (fun kv => JStr (fst kv)) d)
  | JStr s => Ok (List.map (fun c => JStr (String c EmptyString)) (list_ascii_of_string s))
  | _ => Err TypeError
  end.

(** [{**j}]: [TypeError] unless [j] is a mapping. *)
Definition as_mapping (j : json) : res (list (string * json)) :=
  match j with JDict d => Ok d | _ => Err TypeError end.

Fixpoint map_res {A B} (f : A -> res B) (l : list A) : res (list B) :=
  match l with
  | [] => Ok []
  | x :: l' => let* y := f x in let* ys := map_res f l' in Ok (y :: ys)
  end.

Definition flatten_job (pipeline_info job : json) : res (list (list (string * json))) :=
  let* pd := as_mapping pipeline_info in
  let* jd := as_mapping job in
  let job_info := dunion pd jd in
  let* job_info := match ddel job_info "results" with
                   | Some d => Ok d
                   | None => Err KeyError
                   end in
  let results := match dget jd "results" with Some v => v | None => JList [] end in
  let* rs := py_iter results in
  map_res (fun result => let* rd := as_mapping result in Ok (dunion job_info rd)) rs.

Definition flatten_json (json_data : json) : res (list (list (string * json))) :=
  let* pipeline_info := jget json_data "pipeline" in
  let* jobs := jget json_data "jobs" in
  let* jl := py_iter jobs in
  let* rows := map_res (flatten_job pipeline_info) jl in
  Ok (concat rows).

End RepoMore.

(** ** files.py: the filter phase of [process_transformed_records] *)

Module FilterMore.
Import Regex Store Files.

(** The [rules] argument of [_apply_filter_pattern]: None, a str or a list
    of str. *)
Inductive rules : Type :=
| RNone
| RStr (p : string)
| RList (ps : list string).

(** [_apply_filter_pattern(metric_name, value, rules, rule_type, tracker)]:
    the boolean result ([tracker] only collects reasons for the log).  An
    invalid pattern is logged and skipped. *)
Definition apply_filter_pattern (value : scalar) (rs : rules) (rule_type : string) : bool :=
  match rs with
  | RNone => true
  | _ =>
      let value_str := Lml.py_str value in
      let patterns := match rs with RStr p => [p] | RList ps => ps | RNone => [] end in
      match patterns with
      | [] => if String.eqb rule_type "include" then false else true
      | _ =>
          let found := existsb (fun p => match compile p with
                                         | Some r => re_search r value_str
                                         | None => false
                                         end) patterns in
          if String.eqb rule_type "exclude" then negb found
          else if String.eqb rule_type "include" then found
          else false
      end
  end.

(** [m_def.get('exclude')] / [m_def.get('include')]: absent, a str, a
    list of str, or a dict from metric keys to rules. *)
Inductive rule_src : Type :=
| SrcNone
| SrcStr (p : string)
| SrcList (ps : list string)
| SrcDict (d : list (string * rules)).

(** The part of a compiled metric definition the filter phase reads: is it
    simple ([name] given), its metric keys, its [exclude] and [include]. *)
Record filter_def : Type := mkFilter {
  f_simple : bool;
  f_keys : list string;
  f_exclude : rule_src;
  f_include : rule_src
}.

(** [exclude_src if is_simple else (exclude_src.get(metric_key) if
    isinstance(exclude_src, dict) else None)]; a dict given to a simple
    metric is iterated as the list of its keys. *)
Definition current_rules (simple : bool) (src : rule_src) (metric_key : string) : rules :=
  if simple then
    match src with
    | SrcNone => RNone
    | SrcStr p => RStr p
    | SrcList ps => RList ps
    | SrcDict d => RList (List.map fst d)
    end
  else
    match src with
    | SrcDict d => match dget d metric_key with Some r => r | None => RNone end
    | _ => RNone
    end.

(** The loop [for metric_key in metric_keys_for_filtering] of one metric
    definition: [false] once a value is dropped. *)
Definition filter_keys (f : filter_def) (r : record) : bool :=
  forallb (fun metric_key =>
             match dget r metric_key with
             | None => true
             | Some v =>
                 apply_filter_pattern v (current_rules (f_simple f) (f_exclude f) metric_key) "exclude"
                 && apply_filter_pattern v (current_rules (f_simple f) (f_include f) metric_key) "include"
             end) (f_keys f).

(** The filter loop and [if keep_this_record_overall and
    current_record_values: final_records.append(...)]. *)
Definition filter_phase (fs : list filter_def) (r : record) : option record :=
  if forallb (fun f => filter_keys f r) fs && negb (Nat.eqb (length r) 0) then Some r else None.

End FilterMore.

(** ** [apply_pattern] on a dict, entity by entity *)

Module SelectMore.
Import Store.

(** For each entity: its exclude and include results, as in the loops of
    [Info.apply_pattern] and [BenchRepo.apply_pattern]; the entities that
    are neither excluded nor failing the include rule, and whether some
    entity is both excluded and not included. A reference formulation of
    the two [apply_pattern] functions (see [SelectFacts]), not itself a
    function of the source. *)
Fixpoint select (chk : string -> record -> pattern -> res bool) (exclude include : pattern)
  (d : store) : res (store * bool) :=
  match d with
  | [] => Ok ([], false)
  | (k, u) :: d' =>
      let* ex := (if truthy exclude then chk k u exclude else Ok false) in
      let* inc := (if truthy include then chk k u include else Ok true) in
      let* rest := select chk exclude include d' in
      Ok (if ex || negb inc then fst rest else (k, u) :: fst rest,
          (ex && negb inc) || snd rest)
  end.

End SelectMore.

(** ** Sample stores *)

Module Samples.
Import Store Lml.



(** The value of a string of decimal digits. *)
Fixpoint digits_value (w : list ascii) (acc : nat) : option nat :=
  match w with
  | [] => Some acc
  | c :: w' =>
      let k := nat_of_ascii c in
      if ((48 <=? k) && (k <=? 57))%nat then digits_value w' (10 * acc + (k - 48)) else None
  end.

(** [str(x)] for an integral float [x] below 1000: its digits and [.0]. *)
Definition small_float_str (x : Files.float) : string :=
  match List.find (fun n => PrimFloat.eqb (Files.float_of_nat n) x) (List.seq 0 1000) with
  | Some n => String.append (nat_str (Z.of_nat n)) ".0"
  | None => "nan"
  end.

(** A sample of the builtins, agreeing with Python on small integral
    values: [float] of a string of decimal digits or of an [int] below
    2^53 in absolute value, [ValueError] for any other string; [sum] from
    left to right; [str] of an integral float below 1000; the format
    ["{}"]. *)
Definition small_float_ops : Files.float_ops :=
  {| Files.py_float := fun v =>
       match v with
       | SStr s =>
           match list_ascii_of_string s with
           | [] => Err ValueError
           | w => match digits_value w 0 with
                  | Some n => Ok (Files.float_of_nat n)
                  | None => Err ValueError
                  end
           end
       | SInt z => Ok (if (z <? 0)%Z then PrimFloat.opp (Files.float_of_nat (Z.to_nat (- z)))
                       else Files.float_of_nat (Z.to_nat z))
       | SNone => Err TypeError
       end;
     Files.py_sum := fun xs => fold_left PrimFloat.add xs (Files.float_of_nat 0);
     Files.py_str := small_float_str;
     Files.py_format := fun fmt a =>
       if String.eqb fmt "{}" then
         Ok (match a with
             | Files.FInt n => nat_str (Z.of_nat n)
             | Files.FFloat x => small_float_str x
             | Files.FStr s => s
             end)
       else Err ValueError |}.

End Samples.

(** * Properties *)

(** ** The regex matcher decides prefix and factor matching *)

Module RegexFacts.
Import Regex.
Local Open Scope list_scope.

Lemma lang_null_inv (w : list ascii) : ~ lang RNull w.
Proof. intros H; inversion H. Qed.

Lemma lang_eps_inv (w : list ascii) : lang REps w -> w = [].
Proof. intros H; inversion H; reflexivity. Qed.

Lemma lang_chr_inv (c : ascii) (w : list ascii) : lang (RChr c) w -> w = [c].
Proof. intros H; inversion H; reflexivity. Qed.

Lemma lang_any_inv (w : list ascii) :
  lang RAny w -> exists c, w = [c] /\ c <> newline.
Proof. intros H; inversion H; subst; eauto. Qed.

Lemma lang_cat_inv (r1 r2 : regex) (w : list ascii) :
  lang (RCat r1 r2) w -> exists w1 w2, w = w1 ++ w2 /\ lang r1 w1 /\ lang r2 w2.
Proof. intros H; inversion H; subst; eauto. Qed.

Lemma lang_alt_inv (r1 r2 : regex) (w : list ascii) :
  lang (RAlt r1 r2) w -> lang r1 w \/ lang r2 w.
Proof. intros H; inversion H; subst; auto. Qed.

Lemma nullable_spec (r : regex) : nullable r = true <-> lang r [].
Proof.
  induction r; simpl; split; intros H.
  - discriminate.
  - exfalso; eapply lang_null_inv; eassumption.
  - constructor.
  - reflexivity.
  - discriminate.
  - apply lang_chr_inv in H; discriminate.
  - discriminate.
  - apply lang_any_inv in H as (c & E & _); discriminate.
  - apply andb_true_iff in H as [H1 H2].
    apply (LCat _ _ [] []); [apply IHr1 | apply IHr2]; assumption.
  - apply lang_cat_inv in H as (w1 & w2 & E & H1 & H2).
    symmetry in E; apply app_eq_nil in E as [-> ->].
    apply andb_true_iff; split; [apply IHr1 | apply IHr2]; assumption.
  - apply orb_true_iff in H as [H | H];
      [apply LAltL, IHr1 | apply LAltR, IHr2]; assumption.
  - apply orb_true_iff; apply lang_alt_inv in H as [H | H];
      [left; apply IHr1 | right; apply IHr2]; assumption.
  - constructor.
  - reflexivity.
Qed.

Lemma star_cons_inv (r : regex) (s : list ascii) :
  lang (RStar r) s -> forall c w, s = c :: w ->
  exists w1 w2, w = w1 ++ w2 /\ lang r (c :: w1) /\ lang (RStar r) w2.
Proof.
  intros H. remember (RStar r) as rs eqn:Ers.
  induction H as [| | | | | | r0 | r0 w1 w2 H1 IH1 H2 IH2];
    intros c0 w0 Es; try discriminate.
  injection Ers as ->.
  destruct w1 as [| c1 w1'].
  - apply IH2; auto.
  - simpl in Es. injection Es as Ec Ew. subst. exists w1', w2. auto.
Qed.

Lemma deriv_spec (c : ascii) (r : regex) (w : list ascii) :
  lang (deriv c r) w <-> lang r (c :: w).
Proof.
  revert w; induction r as [| | d | | r1 IHr1 r2 IHr2 | r1 IHr1 r2 IHr2 | r IHr];
    intros w; simpl.
  - split; intros H; exfalso; eapply lang_null_inv; eassumption.
  - split; intros H; [exfalso; eapply lang_null_inv; eassumption|].
    apply lang_eps_inv in H; discriminate.
  - destruct (Ascii.eqb_spec c d) as [-> | Hne]; split; intros H.
    + apply lang_eps_inv in H as ->. constructor.
    + apply lang_chr_inv in H. injection H as ->. constructor.
    + exfalso; eapply lang_null_inv; eassumption.
    + apply lang_chr_inv in H. injection H as -> _. contradiction.
  - destruct (Ascii.eqb_spec c newline) as [-> | Hne]; split; intros H.
    + exfalso; eapply lang_null_inv; eassumption.
    + apply lang_any_inv in H as (c' & E & Hc). injection E as Ec Ew. subst. contradiction.
    + apply lang_eps_inv in H as ->. now constructor.
    + apply lang_any_inv in H as (c' & E & Hc). injection E as Ec Ew. subst. constructor.
  - destruct (nullable r1) eqn:En; split; intros H.
    + apply lang_alt_inv in H as [H | H].
      * apply lang_cat_inv in H as (w1 & w2 & -> & H1 & H2).
        apply IHr1 in H1. apply (LCat _ _ (c :: w1) w2); assumption.
      * apply IHr2 in H. apply (LCat _ _ [] (c :: w)); [apply nullable_spec|]; assumption.
    + apply lang_cat_inv in H as (w1 & w2 & E & H1 & H2). destruct w1 as [| c1 w1'].
      * simpl in E; subst. apply LAltR, IHr2. assumption.
      * simpl in E. injection E as -> ->. apply LAltL. apply LCat; [apply IHr1|]; assumption.
    + apply lang_cat_inv in H as (w1 & w2 & -> & H1 & H2).
      apply IHr1 in H1. apply (LCat _ _ (c :: w1) w2); assumption.
    + apply lang_cat_inv in H as (w1 & w2 & E & H1 & H2). destruct w1 as [| c1 w1'].
      * apply nullable_spec in H1. congruence.
      * simpl in E. injection E as -> ->. apply LCat; [apply IHr1|]; assumption.
  - split; intros H; apply lang_alt_inv in H as [H | H].
    + apply LAltL, IHr1; assumption.
    + apply LAltR, IHr2; assumption.
    + apply LAltL, IHr1; assumption.
    + apply LAltR, IHr2; assumption.
  - split; intros H.
    + apply lang_cat_inv in H as (w1 & w2 & -> & H1 & H2). apply IHr in H1.
      apply (LStarS _ (c :: w1) w2); assumption.
    + destruct (star_cons_inv r _ H c w eq_refl) as (w1 & w2 & -> & H1 & H2).
      apply LCat; [apply IHr|]; assumption.
Qed.

Lemma match_prefix_spec (r : regex) (w : list ascii) :
  match_prefix r w = true <-> exists p q, w = p ++ q /\ lang r p.
Proof.
  revert r; induction w as [| c w IH]; intros r; simpl; split; intros H.
  - rewrite orb_false_r in H. exists [], []. split; [reflexivity|].
    apply nullable_spec; assumption.
  - destruct H as (p & q & E & Hl). symmetry in E. apply app_eq_nil in E as [-> ->].
    rewrite orb_false_r. apply nullable_spec; assumption.
  - apply orb_true_iff in H as [H | H].
    + exists [], (c :: w). split; [reflexivity|]. apply nullable_spec; assumption.
    + apply IH in H as (p & q & -> & Hl). exists (c :: p), q.
      split; [reflexivity|]. apply deriv_spec; assumption.
  - destruct H as (p & q & E & Hl). apply orb_true_iff.
    destruct p as [| c1 p'].
    + left. apply nullable_spec; assumption.
    + right. injection E as -> ->. apply IH. exists p', q.
      split; [reflexivity|]. apply deriv_spec; assumption.
Qed.

Lemma search_from_spec (r : regex) (w : list ascii) :
  search_from r w = true <-> exists p m q, w = p ++ m ++ q /\ lang r m.
Proof.
  induction w as [| c w IH]; cbn -[match_prefix]; split; intros H.
  - rewrite orb_false_r in H. apply match_prefix_spec in H as (m & q & E & Hl).
    exists [], m, q. auto.
  - destruct H as (p & m & q & E & Hl). rewrite orb_false_r.
    apply match_prefix_spec. destruct p; [|discriminate]. exists m, q. auto.
  - apply orb_true_iff in H as [H | H].
    + apply match_prefix_spec in H as (m & q & E & Hl). exists [], m, q. auto.
    + apply IH in H as (p & m & q & -> & Hl). exists (c :: p), m, q. auto.
  - destruct H as (p & m & q & E & Hl). apply orb_true_iff.
    destruct p as [| c1 p'].
    + left. apply match_prefix_spec. exists m, q. auto.
    + right. injection E as -> ->. apply IH. exists p', m, q. auto.
Qed.

(** [re.match] finds a match anchored at the start of the subject. *)
Lemma re_match_spec (r : regex) (s : string) :
  re_match r s = true <->
  exists p q, list_ascii_of_string s = p ++ q /\ lang r p.
Proof. apply match_prefix_spec. Qed.

(** [re.search] finds a match anywhere in the subject. *)
Lemma re_search_spec (r : regex) (s : string) :
  re_search r s = true <->
  exists p m q, list_ascii_of_string s = p ++ m ++ q /\ lang r m.
Proof. apply search_from_spec. Qed.

End RegexFacts.

(** ** Deep merge *)

Module MergeFacts.
Import Merge MergeSpec.

(** C1 (failing input).  [Info.__add__] merging B = {"n": {"f": "1"}} into
    a store whose [_dict] is A = {"n": {}}: the recursive call
    [self.add(bv, add_to=av)] receives the empty dict [av], which is falsy,
    so [if not add_to: add_to = self._dict] redirects the write to the top
    level.  The result is {"n": {}, "f": "1"}: the field "f" of entity "n"
    is lost from "n" and a spurious top-level entity "f" appears, whereas
    the deep merge the claim describes gives {"n": {"f": "1"}}. *)
Lemma info_add_empty_record_misplaces_fields :
  let h0 := mkHeap (<[0 := [("n", PRef 1)]]> (<[1 := []]> ∅)) 2 in
  let b := [("n", VDict [("f", VStr "1")])] in
  read 3 (snd (info_add (mkInfo [] 0) [] b h0)) 0
    = VDict [("n", VDict []); ("f", VStr "1")] /\
  merge_spec (VDict [("n", VDict [])]) (VDict b) = VDict [("n", VDict [("f", VStr "1")])].
Proof. split; vm_compute; reflexivity. Qed.

(** The same redirection one level deeper: a nested empty mapping. *)
Lemma add_nested_empty_dict_writes_root :
  let h0 := mkHeap (<[0 := [("n", PRef 1)]]> (<[1 := [("g", PRef 2)]]>
                   (<[2 := []]> ∅))) 3 in
  read 4 (add 0 [("n", VDict [("g", VDict [("h", VInt 1)])])] None h0) 0
    = VDict [("n", VDict [("g", VDict [])]); ("h", VInt 1)].
Proof. vm_compute; reflexivity. Qed.

(** With a non-empty receiving record the merge is the deep merge. *)
Lemma add_nonempty_record_merges :
  let h0 := mkHeap (<[0 := [("n", PRef 1); ("m", PStr "a")]]>
                   (<[1 := [("e", PStr "0"); ("f", PStr "x")]]> ∅)) 2 in
  let b := [("n", VDict [("f", VStr "1"); ("g", VInt 2)]); ("k", VStr "z")] in
  read 3 (add 0 b None h0) 0
    = merge_spec (VDict [("n", VDict [("e", VStr "0"); ("f", VStr "x")]); ("m", VStr "a")])
                 (VDict b).
Proof. vm_compute; reflexivity. Qed.

End MergeFacts.

(** ** Include / exclude filtering *)

Module PatternFacts.
Import Regex RegexFacts Store.
Local Open Scope list_scope.

(** A string rule of [Info.check_unit] matches at the start of the name. *)
Lemma prom_check_unit_str_spec (pat name : string) (r : regex) (u : record) :
  compile pat = Some r ->
  (prom_check_unit name u (PatStr pat) = Ok true <->
   exists p q, list_ascii_of_string name = p ++ q /\ lang r p).
Proof.
  intros Hc. unfold prom_check_unit, check_unit, py_re. rewrite Hc.
  rewrite <- re_match_spec. split; [intros H; injection H; auto | intros ->; reflexivity].
Qed.

(** A string rule of [BenchRepo.check_unit] matches anywhere in the name. *)
Lemma gitlab_check_unit_str_spec (pat name : string) (r : regex) (u : record) :
  compile pat = Some r ->
  (gitlab_check_unit name u (PatStr pat) = Ok true <->
   exists p m q, list_ascii_of_string name = p ++ m ++ q /\ lang r m).
Proof.
  intros Hc. unfold gitlab_check_unit, check_unit, py_re. rewrite Hc.
  rewrite <- re_search_spec. split; [intros H; injection H; auto | intros ->; reflexivity].
Qed.

(** C3 (failing input).  The pattern "ode0" occurs in the entity key
    "node01" but not at its start: [Info.check_unit] (prometheus.py, with
    [re.match]) reports no match, while its sibling [BenchRepo.check_unit]
    (gitlab.py, with [re.search]) reports the substring match the claim
    describes. *)
Lemma prom_check_unit_ode0_node01 :
  prom_check_unit "node01" [] (PatStr "ode0") = Ok false /\
  gitlab_check_unit "node01" [] (PatStr "ode0") = Ok true.
Proof. split; vm_compute; reflexivity. Qed.

(** C4 (failing input).  Entity "node01" matches the exclude rule
    "node0.*" and fails the include rule "gpu.*": [Info.apply_pattern]
    appends it to the list [to_remove] twice and the second
    [del self._dict[unitname]] raises [KeyError]; [BenchRepo.apply_pattern]
    collects [to_remove] in a set and returns normally. *)
Lemma prom_apply_pattern_double_removal :
  prom_apply_pattern (PatStr "node0.*") (PatStr "gpu.*") [("node01", [])] = Err KeyError /\
  gitlab_apply_pattern (PatStr "node0.*") (PatStr "gpu.*") [("node01", [])] = Ok [].
Proof. split; vm_compute; reflexivity. Qed.

(** C5 (failing input).  Store [node02; node01], exclude "node0.*",
    include "node01": "node01" matches both rules, but "node02" (excluded
    and not included) is listed twice, the second deletion raises
    [KeyError] and "node01" is never removed.  The gitlab sibling removes
    both. *)
Lemma prom_apply_pattern_exclude_include_raises :
  prom_apply_pattern (PatStr "node0.*") (PatStr "node01")
    [("node02", []); ("node01", [])] = Err KeyError /\
  gitlab_apply_pattern (PatStr "node0.*") (PatStr "node01")
    [("node02", []); ("node01", [])] = Ok [].
Proof. split; vm_compute; reflexivity. Qed.

(** The scenario of the spec: "node01" alone, exclude "node0.*", include
    "node.*": the entity is removed. *)
Lemma prom_apply_pattern_node01_removed :
  prom_apply_pattern (PatStr "node0.*") (PatStr "node.*") [("node01", [])] = Ok [].
Proof. vm_compute; reflexivity. Qed.

Lemma ddel_spec {A} (d d' : list (string * A)) (k : string) :
  ddel d k = Some d' -> List.NoDup (map fst d) ->
  ~ In k (map fst d') /\ List.NoDup (map fst d') /\ (forall x, In x (map fst d') -> In x (map fst d)).
Proof.
  revert d'; induction d as [| [k0 v0] d IH]; intros d' Hdel Hnd; simpl in *.
  - discriminate.
  - inversion Hnd as [| ? ? Hnin Hnd']; subst.
    revert Hdel; destruct (String.eqb_spec k k0) as [-> | Hne]; intros Hdel.
    + injection Hdel as <-. split; [assumption|]. split; [assumption|]. auto.
    + destruct (ddel d k) as [d1 |] eqn:Ed; [|discriminate].
      injection Hdel as <-. destruct (IH d1 eq_refl Hnd') as (H1 & H2 & H3).
      simpl. split; [intros [E | E]; [congruence | contradiction]|].
      split.
      * constructor; [|assumption]. intros Hin; apply Hnin, H3, Hin.
      * intros x [E | E]; [left; assumption | right; apply H3, E].
Qed.

Lemma del_all_spec (d d' : store) (ks : list string) :
  del_all d ks = Ok d' -> List.NoDup (map fst d) ->
  (forall x, In x (map fst d') -> In x (map fst d)) /\
  (forall k, In k ks -> ~ In k (map fst d')).
Proof.
  revert d; induction ks as [| k0 ks IH]; intros d Hdel Hnd; simpl in *.
  - injection Hdel as <-. split; [auto | intros k []].
  - destruct (ddel d k0) as [d1 |] eqn:Ed; [|discriminate].
    destruct (ddel_spec d d1 k0 Ed Hnd) as (H1 & H2 & H3).
    destruct (IH d1 Hdel H2) as (H4 & H5). split.
    + intros x Hx; apply H3, H4, Hx.
    + intros k [<- | Hk]; [intros Hin; apply H1, H4, Hin | apply H5, Hk].
Qed.

Lemma collect_spec (f : string -> record -> res (list string)) (d : store) (l : list string) :
  collect f d = Ok l ->
  forall k u, In (k, u) d -> exists lk, f k u = Ok lk /\ (forall x, In x lk -> In x l).
Proof.
  revert l; induction d as [| [k0 u0] d IH]; intros l Hc k u Hin; simpl in *.
  - contradiction.
  - destruct (f k0 u0) as [l1 | e] eqn:Ef; simpl in Hc; [|discriminate].
    destruct (collect f d) as [l2 | e] eqn:Ec; simpl in Hc; [|discriminate].
    injection Hc as <-. destruct Hin as [E | Hin].
    + injection E as -> ->. exists l1. split; [assumption|]. intros x Hx; apply in_or_app; auto.
    + destruct (IH l2 eq_refl k u Hin) as (lk & H1 & H2). exists lk.
      split; [assumption|]. intros x Hx; apply in_or_app; auto.
Qed.

(** Exclusion wins whenever [Info.apply_pattern] returns: an entity whose
    key matches the exclude rule is gone, whatever the include rule says. *)
Lemma prom_apply_pattern_exclude_wins (ex inc : pattern) (d d' : store) (k : string) (u : record) :
  List.NoDup (map fst d) -> In (k, u) d -> truthy ex = true ->
  prom_check_unit k u ex = Ok true ->
  prom_apply_pattern ex inc d = Ok d' -> ~ In k (map fst d').
Proof.
  intros Hnd Hin Hex Hchk Hap. unfold prom_apply_pattern in Hap.
  destruct (collect (prom_marks ex inc) d) as [l | e] eqn:Ec; simpl in Hap; [|discriminate].
  destruct (collect_spec _ d l Ec k u Hin) as (lk & Hm & Hsub).
  apply (proj2 (del_all_spec d d' l Hap Hnd)). apply Hsub.
  unfold prom_marks in Hm. rewrite Hex, Hchk in Hm. simpl in Hm.
  destruct (if truthy inc then prom_check_unit k u inc else Ok true) as [b | e]; simpl in Hm;
    [|discriminate].
  injection Hm as <-. left; reflexivity.
Qed.

End PatternFacts.

(** ** Rendering of the information section *)

Module RenderFacts.
Import Store Lml.
Local Open Scope list_scope.

Lemma substring_0_length (s : string) : substring 0 (String.length s) s = s.
Proof. induction s as [| c s IH]; simpl; [reflexivity | now rewrite IH]. Qed.

Lemma prefix_nelems_underscores (k : string) :
  String.prefix "__nelems" k = true -> String.prefix "__" k = true.
Proof.
  destruct k as [| c1 [| c2 k']]; cbn -[ascii_dec].
  - intros H; discriminate.
  - destruct (ascii_dec "_" c1); intros H; discriminate.
  - destruct (ascii_dec "_" c1), (ascii_dec "_" c2); simpl; intros H;
      try discriminate; destruct k'; reflexivity.
Qed.

(** The lines [Info.to_LML] writes for one field. *)
Lemma prom_field_lines (i1 i2 : record) (k : string) (v : scalar) :
  prom_data_lines (i1 ++ (k, v) :: i2) =
  prom_data_lines i1 ++
  (if String.prefix "__nelems" k
   then [data_line (substring 2 (String.length k - 2) k) (py_str v)]
   else if String.prefix "__" k then []
   else match v with
        | SStr s => if String.eqb s EmptyString then []
                    else [data_line k (replace_char quote_char sq s)]
        | _ => [data_line k (py_str v)]
        end) ++
  prom_data_lines i2.
Proof. unfold prom_data_lines. rewrite flat_map_app. reflexivity. Qed.

(** The lines [_perform_lml_write] writes for one field. *)
Lemma files_field_lines (i1 i2 : record) (k : string) (v : scalar) :
  files_data_lines (i1 ++ (k, v) :: i2) =
  files_data_lines i1 ++
  (if String.prefix "__nelems" k then [files_data_line k (py_str v)]
   else if String.prefix "__" k then []
   else match v with
        | SNone => []
        | SStr s => [files_data_line k (replace_char quote_char "&quot;" s)]
        | _ => [files_data_line k (py_str v)]
        end) ++
  files_data_lines i2.
Proof. unfold files_data_lines. rewrite flat_map_app. reflexivity. Qed.

(** C2 (counterexample).  The two renderers suppress different values:
    [_perform_lml_write] (files.py) writes [<data key="y" value=""/>] for
    the record {"x": "5", "y": ""}, and [Info.to_LML] (prometheus.py)
    writes [value="None"] for a field holding [None]. *)
Lemma render_empty_and_none_emitted :
  existsb (String.eqb (files_data_line "y" EmptyString))
    (fst (perform_lml_write [("a", [("x", SStr "5"); ("y", SStr EmptyString)])] "i" "item"))
    = true /\
  match to_LML "out/nodes.xml" "i" "item" [("a", [("z", SNone)])] with
  | Ok (lines, _) => existsb (String.eqb (data_line "z" "None")) lines = true
  | Err _ => False
  end.
Proof. split; vm_compute; reflexivity. Qed.

(** C2 (as amended).  For a non-metadata field [k] (name not starting with
    [__]) at any position of a record, [Info.to_LML] writes exactly one
    [data] element when the value is not the empty string (every
    non-string value, [None] included, is written) and none otherwise;
    [_perform_lml_write] writes exactly one when the value is not [None]
    (the empty string included) and none otherwise.  In [Info.to_LML] a
    [__nelems] field is always written.  The record {"x": "5", "y": ""}
    gets a line for "x" and none for "y" from [Info.to_LML]. *)
Theorem data_elements_per_field (i1 i2 : record) (k : string) (v : scalar) :
  String.prefix "__" k = false ->
  prom_data_lines (i1 ++ (k, v) :: i2) =
    prom_data_lines i1 ++
    (if scalar_is_empty v then [] else [data_line k (prom_value v)]) ++
    prom_data_lines i2 /\
  files_data_lines (i1 ++ (k, v) :: i2) =
    files_data_lines i1 ++
    (match v with SNone => [] | _ => [files_data_line k (files_value v)] end) ++
    files_data_lines i2 /\
  (forall n : string,
     prom_data_lines (i1 ++ (String.append "__nelems_" n, v) :: i2) =
     prom_data_lines i1 ++ [data_line (String.append "nelems_" n) (py_str v)]
       ++ prom_data_lines i2) /\
  prom_data_lines [("x", SStr "5"); ("y", SStr EmptyString)] = [data_line "x" "5"].
Proof.
  intros Hk.
  assert (Hn : String.prefix "__nelems" k = false).
  { destruct (String.prefix "__nelems" k) eqn:E; [|reflexivity].
    apply prefix_nelems_underscores in E. congruence. }
  split; [|split; [|split]].
  - rewrite prom_field_lines, Hn, Hk. destruct v; reflexivity.
  - rewrite files_field_lines, Hn, Hk. destruct v; reflexivity.
  - intros n. rewrite prom_field_lines. simpl.
    change (String.append EmptyString n) with n. rewrite substring_0_length.
    reflexivity.
  - vm_compute; reflexivity.
Qed.

Lemma data_elements_per_field_witness :
  String.prefix "__" "y" = false /\
  prom_data_lines ([("x", SStr "5")] ++ [("y", SStr EmptyString)]) = [data_line "x" "5"].
Proof.
  split; [reflexivity|].
  rewrite (proj1 (data_elements_per_field [("x", SStr "5")] [] "y" (SStr EmptyString) eq_refl)).
  reflexivity.
Defined.

Lemma dget_dset_eq {A} (d : list (string * A)) (k : string) (v : A) :
  dget (dset d k v) k = Some v.
Proof.
  induction d as [| [k0 v0] d IH]; simpl.
  - rewrite String.eqb_refl; reflexivity.
  - destruct (String.eqb_spec k k0) as [-> | Hne]; simpl.
    + rewrite String.eqb_refl; reflexivity.
    + apply String.eqb_neq in Hne. rewrite Hne. exact IH.
Qed.

Lemma dget_dset_neq {A} (d : list (string * A)) (k k' : string) (v : A) :
  k' <> k -> dget (dset d k v) k' = dget d k'.
Proof.
  intros Hne. induction d as [| [k0 v0] d IH]; simpl.
  - apply String.eqb_neq in Hne. rewrite Hne. reflexivity.
  - destruct (String.eqb_spec k k0) as [-> | Hne0]; simpl.
    + apply String.eqb_neq in Hne. rewrite Hne. reflexivity.
    + destruct (String.eqb k' k0); [reflexivity | exact IH].
Qed.

Lemma filter_other_keys {A} (d : list (string * A)) (k : string) :
  ~ In k (map fst d) -> List.filter (fun kv => negb (String.eqb (fst kv) k)) d = d.
Proof.
  induction d as [| [k0 v0] d IH]; simpl; intros Hin; [reflexivity|].
  destruct (String.eqb_spec k0 k) as [-> | Hne]; [exfalso; auto|].
  simpl. f_equal. apply IH. auto.
Qed.

Lemma prom_lines_dset_empty (d : record) (k : string) :
  List.NoDup (map fst d) -> String.prefix "__nelems" k = false ->
  prom_data_lines (dset d k (SStr EmptyString)) =
  prom_data_lines (List.filter (fun kv => negb (String.eqb (fst kv) k)) d).
Proof.
  intros Hnd Hk. induction d as [| [k0 v0] d IH]; simpl.
  - unfold prom_data_lines; simpl. rewrite Hk.
    destruct (String.prefix "__" k); reflexivity.
  - inversion Hnd as [| ? ? Hnin Hnd']; subst.
    destruct (String.eqb_spec k k0) as [-> | Hne].
    + rewrite String.eqb_refl. simpl.
      unfold prom_data_lines at 1; simpl. rewrite Hk.
      rewrite filter_other_keys by assumption.
      destruct (String.prefix "__" k0); reflexivity.
    + assert (E : String.eqb k0 k = false) by (apply String.eqb_neq; congruence).
      rewrite E. simpl.
      change (prom_data_lines ((k0, v0) :: dset d k (SStr EmptyString)))
        with (prom_data_lines [(k0, v0)] ++ prom_data_lines (dset d k (SStr EmptyString))).
      change (prom_data_lines ((k0, v0) :: List.filter (fun kv => negb (String.eqb (fst kv) k)) d))
        with (prom_data_lines [(k0, v0)]
              ++ prom_data_lines (List.filter (fun kv => negb (String.eqb (fst kv) k)) d)).
      rewrite IH by assumption. reflexivity.
Qed.

(** C10.  [add_value(key, value, dict)] stores [""] for the exact string
    "(null)" and every other value unchanged, and leaves the other keys
    alone; in a record with distinct keys, a (non-[__nelems]) field stored
    from "(null)" gives no [data] element in [Info.to_LML]'s output: the
    record renders as if the field were absent. *)
Theorem add_value_null (k : string) (v : scalar) (d : record) :
  List.NoDup (map fst d) -> String.prefix "__nelems" k = false ->
  dget (add_value k v d) k =
    Some (match v with
          | SStr s => if String.eqb s "(null)" then SStr EmptyString else v
          | _ => v
          end) /\
  (forall k', k' <> k -> dget (add_value k v d) k' = dget d k') /\
  prom_data_lines (add_value k (SStr "(null)") d) =
    prom_data_lines (List.filter (fun kv => negb (String.eqb (fst kv) k)) d).
Proof.
  intros Hnd Hk. unfold add_value. split; [|split].
  - apply dget_dset_eq.
  - intros k' Hne. apply dget_dset_neq, Hne.
  - simpl. apply prom_lines_dset_empty; assumption.
Qed.

Lemma add_value_null_witness :
  List.NoDup (map fst [("x", SStr "5")]) /\ String.prefix "__nelems" "y" = false /\
  prom_data_lines (add_value "y" (SStr "(null)") [("x", SStr "5")]) = [data_line "x" "5"].
Proof.
  assert (Hnd : List.NoDup (map fst [("x", SStr "5")])) by (repeat constructor; simpl; tauto).
  split; [exact Hnd | split; [reflexivity|]].
  rewrite (proj2 (proj2 (add_value_null "y" (SStr "(null)") [("x", SStr "5")] Hnd eq_refl))).
  reflexivity.
Defined.

End RenderFacts.

(** ** Ids generated by [Info.to_LML] *)

Module IdFacts.
Import Store Lml RenderFacts.
Local Open Scope list_scope.













End IdFacts.

(** ** files.py: ids in [_perform_lml_write] *)

Module FilesIdFacts.
Import Store Lml RenderFacts.
Local Open Scope list_scope.

Lemma files_objects_pass_ids (p t : string) (w : nat) (d : store) : forall (i : Z),
  map fst (snd (files_objects_pass p t w i d)) = map fst d /\
  forall j name item, nth_error d j = Some (name, item) ->
    nth_error (snd (files_objects_pass p t w i d)) j =
      Some (name, if negb (truthy_get item "__id") && negb (is_pstat item)
                  then dset item "__id"
                         (SStr (p ++ zfill w (i + 1 + Z.of_nat (length (List.filter
                            (fun kv => negb (truthy_get (snd kv) "__id") && negb (is_pstat (snd kv)))
                            (firstn j d)))))%string)
                  else item).
Proof.
  induction d as [|[name item] d IH]; intros i.
  - split; [reflexivity|]. intros [|j]; discriminate.
  - cbn [files_objects_pass].
    destruct (truthy_get item "__id") eqn:T; [|destruct (is_pstat item) eqn:P]; cbn [negb andb].
    + destruct (files_objects_pass p t w i d) as [lines d''] eqn:E.
      destruct (IH i) as [Hk Hn]. rewrite E in Hk, Hn. cbn [snd] in Hk, Hn |- *.
      split; [cbn [map fst]; f_equal; exact Hk|].
      intros [|j] n it Hj; cbn [nth_error] in Hj |- *.
      * injection Hj as <- <-. rewrite T. reflexivity.
      * rewrite (Hn j n it Hj). cbn [firstn List.filter snd]. rewrite T. reflexivity.
    + destruct (files_objects_pass p t w i d) as [lines d''] eqn:E.
      destruct (IH i) as [Hk Hn]. rewrite E in Hk, Hn. cbn [snd] in Hk, Hn |- *.
      split; [cbn [map fst]; f_equal; exact Hk|].
      intros [|j] n it Hj; cbn [nth_error] in Hj |- *.
      * injection Hj as <- <-. rewrite T, P. reflexivity.
      * rewrite (Hn j n it Hj). cbn [firstn List.filter snd]. rewrite T, P. reflexivity.
    + destruct (files_objects_pass p t w (i + 1)%Z d) as [lines d''] eqn:E.
      destruct (IH (i + 1)%Z) as [Hk Hn]. rewrite E in Hk, Hn. cbn [snd] in Hk, Hn |- *.
      split; [cbn [map fst]; f_equal; exact Hk|].
      intros [|j] n it Hj; cbn [nth_error] in Hj |- *.
      * injection Hj as <- <-. rewrite T, P. cbn [negb andb firstn List.filter length Z.of_nat].
        rewrite Z.add_0_r. reflexivity.
      * rewrite (Hn j n it Hj). cbn [firstn List.filter snd]. rewrite T, P. cbn [negb andb length].
        do 2 f_equal. destruct (_ && _); [|reflexivity]. do 4 f_equal.
        rewrite Nat2Z.inj_succ. lia.
Qed.

Lemma perform_lml_write_ids_aux (d : store) (id_prefix default_type : string) :
  map fst (snd (perform_lml_write d id_prefix default_type)) = map fst d /\
  forall j name item, nth_error d j = Some (name, item) ->
    nth_error (snd (perform_lml_write d id_prefix default_type)) j =
      Some (name, if negb (truthy_get item "__id") && negb (is_pstat item)
                  then dset item "__id"
                         (SStr (id_prefix ++
                                zfill (lml_digits (length (List.filter (fun kv => negb (is_pstat (snd kv))) d)))
                                  (1 + Z.of_nat (length (List.filter
                                    (fun kv => negb (truthy_get (snd kv) "__id") && negb (is_pstat (snd kv)))
                                    (firstn j d)))))%string)
                  else item).
Proof.
  unfold perform_lml_write.
  destruct (files_objects_pass_ids id_prefix default_type
              (lml_digits (length (List.filter (fun kv => negb (is_pstat (snd kv))) d))) d 0%Z)
    as [Hk Hn].
  destruct (files_objects_pass id_prefix default_type _ 0%Z d) as [objs d'] eqn:E.
  cbn [snd] in Hk, Hn |- *. split; [exact Hk|]. exact Hn.
Qed.

(** [_perform_lml_write] keeps the object names and their order; it
    leaves an object that has a truthy [__id] or is of type ["pstat"] as
    it is, and gives the [k]-th other object (counting from 0) the id
    [id_prefix] followed by [k+1] zero-padded to the number of digits of
    the count of non-pstat objects. *)
Theorem perform_lml_write_ids (d : store) (id_prefix default_type : string) :
  map fst (snd (perform_lml_write d id_prefix default_type)) = map fst d /\
  forall j name item, nth_error d j = Some (name, item) ->
    nth_error (snd (perform_lml_write d id_prefix default_type)) j =
      Some (name, if negb (truthy_get item "__id") && negb (is_pstat item)
                  then dset item "__id"
                         (SStr (id_prefix ++
                                zfill (lml_digits (length (List.filter (fun kv => negb (is_pstat (snd kv))) d)))
                                  (1 + Z.of_nat (length (List.filter
                                    (fun kv => negb (truthy_get (snd kv) "__id") && negb (is_pstat (snd kv)))
                                    (firstn j d)))))%string)
                  else item).
Proof. exact (perform_lml_write_ids_aux d id_prefix default_type). Qed.

End FilesIdFacts.

Module IdClaims.
Import Store Lml IdFacts FilesIdFacts Samples.
Local Open Scope list_scope.

Lemma prefix_app_iff (p s : string) :
  String.prefix p s = true <-> exists b, s = String.append p b.
Proof.
  revert s; induction p as [| a p IH]; intros s.
  - split; [intros _; exists s; reflexivity | intros _; destruct s; reflexivity].
  - destruct s as [| c s]; simpl.
    + split; [discriminate | intros (b & Hb); discriminate].
    + destruct (ascii_dec a c) as [-> | Hne].
      * rewrite IH. split; intros (b & Hb); exists b; [rewrite Hb | injection Hb]; auto.
      * split; [discriminate | intros (b & Hb); injection Hb; congruence].
Qed.

(** [contains sub s] is Python's [sub in s]. *)
Lemma contains_spec (sub s : string) :
  contains sub s = true <-> exists a b, s = String.append a (String.append sub b).
Proof.
  induction s as [| c s IH].
  - cbn [contains]. rewrite orb_false_r, prefix_app_iff. split.
    + intros (b & Hb). exists EmptyString, b. exact Hb.
    + intros (a & b & Hab). destruct a; [exists b; exact Hab | discriminate].
  - cbn [contains]. rewrite orb_true_iff, prefix_app_iff, IH. split.
    + intros [(b & Hb) | (a & b & Hab)].
      * exists EmptyString, b. exact Hb.
      * exists (String c a), b. rewrite Hab. reflexivity.
    + intros (a & b & Hab). destruct a as [| c' a].
      * left. exists b. exact Hab.
      * right. injection Hab as -> Hs. exists a, b. exact Hs.
Qed.








End IdClaims.

(** ** File-mode aggregation *)

Module AggFacts.
Import Store Files Samples.
Local Open Scope list_scope.

(** The loop [for r_idx, r_rec in enumerate(group_records)] appends the
    values [float] accepts, in record order, and raises the first other
    exception of [float]. *)
Lemma numeric_loop_spec (ops : float_ops) (default_map : record) (metric : string)
  (group : list record) (nums : list float) (bad : nat) :
  match numeric_loop ops default_map metric group nums bad,
        coercible_values ops default_map metric group with
  | Ok (nums', _), Ok xs => nums' = nums ++ xs
  | Err e, Err e' => e = e'
  | _, _ => False
  end.
Proof.
  revert nums bad.
  induction group as [| r group IH]; intros nums bad; cbn [numeric_loop coercible_values].
  - rewrite app_nil_r. reflexivity.
  - destruct (get_value_with_default default_map r metric) as [s | z |];
      [destruct (py_float ops (SStr s)) as [x | [] ] |
       destruct (py_float ops (SInt z)) as [x | [] ] | apply IH];
      try apply IH; try reflexivity;
      specialize (IH (nums ++ [x]) bad);
      destruct (numeric_loop ops default_map metric group (nums ++ [x]) bad) as [[nums' b'] | e];
      destruct (coercible_values ops default_map metric group) as [xs | e'];
      try contradiction; rewrite ?IH, <- ?app_assoc; reflexivity.
Qed.

(** C7: [aggregate: avg] over a source field gives
    [str(sum(xs) / len(xs))] where [xs] are the group's values, in record
    order, that are not [None] and on which [float] raises no [ValueError]
    or [TypeError]: the other values are skipped and not counted.  With no
    such value, or with an empty [source], the cell is [""]; another
    exception of [float] is raised.  On the group [{"idx":"A","v":"10"}],
    [{"idx":"A","v":"20"}], [{"idx":"A","v":"x"}], Python's builtins
    ([float("10") = 10.0], [float("20") = 20.0], [float("x")] raising
    [ValueError], [sum([10.0, 20.0]) = 30.0], [str(15.0) = "15.0"]) and
    the binary64 division [30.0 / 2] give ["15.0"]. *)
Theorem avg_is_mean_of_numeric :
  (forall (ops : float_ops) (default_map : record) (metric : string) (unique : bool)
          (group : list record),
     aggregate_column ops default_map (mkInstr "avg" (Some metric) unique None) group =
     if String.eqb metric EmptyString then Ok (CStr EmptyString)
     else match coercible_values ops default_map metric group with
          | Err e => Err e
          | Ok [] => Ok (CStr EmptyString)
          | Ok xs => Ok (CStr (py_str ops (PrimFloat.div (py_sum ops xs)
                                                         (float_of_nat (length xs)))))
          end) /\
  (forall (ops : float_ops) (unique : bool),
     py_float ops (SStr "10") = Ok (float_of_nat 10) ->
     py_float ops (SStr "20") = Ok (float_of_nat 20) ->
     py_float ops (SStr "x") = Err ValueError ->
     py_sum ops [float_of_nat 10; float_of_nat 20] = float_of_nat 30 ->
     py_str ops (float_of_nat 15) = "15.0" ->
     aggregate_column ops [] (mkInstr "avg" (Some "v") unique None)
       [[("idx", SStr "A"); ("v", SStr "10")];
        [("idx", SStr "A"); ("v", SStr "20")];
        [("idx", SStr "A"); ("v", SStr "x")]] = Ok (CStr "15.0")).
Proof.
  assert (G : forall (ops : float_ops) (default_map : record) (metric : string) (unique : bool)
                     (group : list record),
     aggregate_column ops default_map (mkInstr "avg" (Some metric) unique None) group =
     if String.eqb metric EmptyString then Ok (CStr EmptyString)
     else match coercible_values ops default_map metric group with
          | Err e => Err e
          | Ok [] => Ok (CStr EmptyString)
          | Ok xs => Ok (CStr (py_str ops (PrimFloat.div (py_sum ops xs)
                                                         (float_of_nat (length xs)))))
          end).
  { intros ops default_map metric unique group. unfold aggregate_column. cbn [i_source].
    destruct (String.eqb metric EmptyString); [reflexivity|].
    cbn [i_aggregate i_wrap i_unique String.eqb existsb orb].
    pose proof (numeric_loop_spec ops default_map metric group [] 0%nat) as H.
    destruct (numeric_loop ops default_map metric group [] 0%nat) as [[nums b] | e];
      destruct (coercible_values ops default_map metric group) as [xs | e'];
      try contradiction; [|subst; reflexivity].
    cbn [app] in H. subst nums. destruct xs; reflexivity. }
  split; [exact G|].
  intros ops unique H10 H20 Hx Hsum Hstr. rewrite G.
  cbn [String.eqb coercible_values get_value_with_default dget Ascii.eqb Bool.eqb andb].
  simpl. rewrite H10, H20, Hx. cbn [length]. rewrite Hsum.
  replace (PrimFloat.div (float_of_nat 30) (float_of_nat 2)) with (float_of_nat 15)
    by (vm_compute; reflexivity).
  rewrite Hstr. reflexivity.
Qed.

Lemma avg_is_mean_of_numeric_witness :
  py_float small_float_ops (SStr "10") = Ok (float_of_nat 10) /\
  py_float small_float_ops (SStr "20") = Ok (float_of_nat 20) /\
  py_float small_float_ops (SStr "x") = Err ValueError /\
  py_sum small_float_ops [float_of_nat 10; float_of_nat 20] = float_of_nat 30 /\
  py_str small_float_ops (float_of_nat 15) = "15.0" /\
  aggregate_column small_float_ops [] (mkInstr "avg" (Some "v") false None)
    [[("idx", SStr "A"); ("v", SStr "10")];
     [("idx", SStr "A"); ("v", SStr "20")];
     [("idx", SStr "A"); ("v", SStr "x")]] = Ok (CStr "15.0").
Proof.
  assert (H1 : py_float small_float_ops (SStr "10") = Ok (float_of_nat 10)) by (vm_compute; reflexivity).
  assert (H2 : py_float small_float_ops (SStr "20") = Ok (float_of_nat 20)) by (vm_compute; reflexivity).
  assert (H3 : py_float small_float_ops (SStr "x") = Err ValueError) by (vm_compute; reflexivity).
  assert (H4 : py_sum small_float_ops [float_of_nat 10; float_of_nat 20] = float_of_nat 30)
    by (vm_compute; reflexivity).
  assert (H5 : py_str small_float_ops (float_of_nat 15) = "15.0") by (vm_compute; reflexivity).
  refine (conj H1 (conj H2 (conj H3 (conj H4 (conj H5 _))))).
  exact (proj2 avg_is_mean_of_numeric small_float_ops false H1 H2 H3 H4 H5).
Defined.

End AggFacts.

(** ** Unknown transformation functions *)

Module TransformFacts.
Import Store Files.
Local Open Scope list_scope.

Lemma fold_res_app {A B} (f : A -> B -> res A) (a : A) (l1 l2 : list B) :
  fold_res f a (l1 ++ l2) = bind (fold_res f a l1) (fun a' => fold_res f a' l2).
Proof.
  revert a; induction l1 as [| x l1 IH]; intros a; [reflexivity|].
  simpl. destruct (f a x); [apply IH | reflexivity].
Qed.

Lemma apply_func_unknown (g : registry) (item : record) (key u : string) :
  dget g u = None -> apply_func g item key u = Ok item.
Proof. intros H. unfold apply_func. rewrite H. reflexivity. Qed.

Lemma modify_keys (g : registry) (md : list (string * modify_spec)) (d d' : store) :
  modify g md d = Ok d' -> map fst d' = map fst d.
Proof.
  revert d'; induction d as [| [k item] d IH]; intros d' H; simpl in H.
  - injection H as <-. reflexivity.
  - destruct (modify_item g md item) as [item'|]; [|discriminate]. simpl in H.
    destruct (modify g md d) as [d''|] eqn:E; [|discriminate]. simpl in H.
    injection H as <-. simpl. f_equal. apply IH. reflexivity.
Qed.

(** C8 (counterexample): in files.py a transformation naming a function
    that is not defined drops the record; the next record is still
    processed. *)
Lemma files_unknown_transform_drops_record :
  process_transformed_records [] [mkMetric ["v"] [("v", "nosuch")]] (fun r => Some r)
    [[("v", SStr "1")]; [("w", SStr "2")]] = [[("w", SStr "2")]].
Proof. reflexivity. Qed.

Lemma transform_keys_app (g : globals) (ac : list (string * string)) (ks1 ks2 : list string)
  (r : record) :
  transform_keys g ac (ks1 ++ ks2) r =
  match transform_keys g ac ks1 r with Some r' => transform_keys g ac ks2 r' | None => None end.
Proof.
  revert r; induction ks1 as [|k ks1 IH]; intros r; [reflexivity|].
  cbn [app transform_keys].
  destruct (dget r k) as [v|]; [|apply IH].
  destruct (dget ac k) as [fname|]; [|apply IH].
  destruct (String.eqb fname EmptyString); [apply IH|].
  destruct (dget g fname) as [[f|]|]; [|reflexivity|reflexivity].
  destruct (f v) as [[s|z|]|]; [apply IH|apply IH| |reflexivity].
  destruct v; [destruct (String.eqb fname "to_timestamp")|destruct (String.eqb fname "to_timestamp")|];
    first [reflexivity | apply IH].
Qed.

Lemma transform_record_app (g : globals) (ms1 ms2 : list metric_def) (r : record) :
  transform_record g (ms1 ++ ms2) r =
  match transform_record g ms1 r with Some r' => transform_record g ms2 r' | None => None end.
Proof.
  revert r; induction ms1 as [|m ms1 IH]; intros r; [reflexivity|].
  cbn [app transform_record].
  destruct (m_apply m) as [|a ac]; [apply IH|].
  destruct (transform_keys g (a :: ac) (m_keys m) r); [apply IH|reflexivity].
Qed.

(** C8 (amended): in [Info.modify] (prometheus.py) a function name [u] not
    defined in the module is skipped: the field keeps its value, the
    remaining names are applied as if [u] were not listed, the records are
    neither removed nor renamed, and a configuration naming only [u] leaves
    the store unchanged without raising.  In files.py
    ([process_transformed_records]), once a transformation of a record
    reaches a metric key present in the record whose [apply] entry names a
    function that is not found or not callable, the record is dropped
    and the next records are processed as if it had not been there. *)
Theorem modify_unknown_function_skipped (g : registry) (u key : string)
  (item : record) (l1 l2 : list string) :
  dget g u = None ->
  apply_func g item key u = Ok item /\
  fold_res (fun it f => apply_func g it key f) item (l1 ++ u :: l2) =
    fold_res (fun it f => apply_func g it key f) item (l1 ++ l2) /\
  (forall md d d', modify g md d = Ok d' -> map fst d' = map fst d) /\
  (forall d, modify g [(key, MList [u])] d = Ok d) /\
  (forall (gl : globals) (ms1 ms2 : list metric_def) (m : metric_def)
          (ks1 ks2 : list string) (k fname : string) (filters : record -> option record)
          (raw rec1 rec2 : record) (rs : list record) (v : scalar),
     transform_record gl ms1 raw = Some rec1 ->
     m_apply m <> [] -> m_keys m = ks1 ++ k :: ks2 ->
     transform_keys gl (m_apply m) ks1 rec1 = Some rec2 ->
     dget rec2 k = Some v -> dget (m_apply m) k = Some fname -> fname <> EmptyString ->
     (forall f, dget gl fname <> Some (PyFunc f)) ->
     transform_record gl (ms1 ++ m :: ms2) raw = None /\
     process_transformed_records gl (ms1 ++ m :: ms2) filters (raw :: rs) =
       process_transformed_records gl (ms1 ++ m :: ms2) filters rs).
Proof.
  intros Hu. split; [apply apply_func_unknown; exact Hu|]. split; [|split; [|split]].
  - rewrite !fold_res_app.
    destruct (fold_res (fun it f => apply_func g it key f) item l1) as [a|]; simpl;
      [rewrite apply_func_unknown by exact Hu|]; reflexivity.
  - apply modify_keys.
  - induction d as [| [k it] d IH]; [reflexivity|].
    simpl. unfold modify_item. simpl.
    destruct (dmem it key); simpl; [rewrite apply_func_unknown by exact Hu|];
      simpl; rewrite IH; reflexivity.
  - intros gl ms1 ms2 m ks1 ks2 k fname filters raw rec1 rec2 rs v
      H1 Hap Hks H2 Hv Hf Hne Hg.
    assert (Hn : transform_record gl (ms1 ++ m :: ms2) raw = None).
    { rewrite transform_record_app, H1. cbn [transform_record].
      destruct (m_apply m) as [|a ac] eqn:E; [congruence|].
      rewrite Hks, transform_keys_app, H2. cbn [transform_keys].
      rewrite Hv, Hf. destruct (String.eqb_spec fname EmptyString) as [|_]; [contradiction|].
      destruct (dget gl fname) as [[f|]|]; [|reflexivity|reflexivity].
      exfalso. exact (Hg f eq_refl). }
    split; [exact Hn|]. cbn [process_transformed_records]. rewrite Hn. reflexivity.
Qed.

Lemma modify_unknown_function_skipped_witness :
  (
  apply_func [("upper", fun v => Ok v)] [("state", SStr "idle")] "state" "nosuch"
    = Ok [("state", SStr "idle")] /\
  fold_res (fun it f => apply_func [("upper", fun v => Ok v)] it "state" f)
    [("state", SStr "idle")] (["upper"] ++ "nosuch" :: []) =
  fold_res (fun it f => apply_func [("upper", fun v => Ok v)] it "state" f)
    [("state", SStr "idle")] (["upper"] ++ []) /\
  (forall md d d', modify [("upper", fun v => Ok v)] md d = Ok d' -> map fst d' = map fst d) /\
  (forall d, modify [("upper", fun v => Ok v)] [("state", MList ["nosuch"])] d = Ok d) /\
  (forall (gl : globals) (ms1 ms2 : list metric_def) (m : metric_def)
          (ks1 ks2 : list string) (k fname : string) (filters : record -> option record)
          (raw rec1 rec2 : record) (rs : list record) (v : scalar),
     transform_record gl ms1 raw = Some rec1 ->
     m_apply m <> [] -> m_keys m = ks1 ++ k :: ks2 ->
     transform_keys gl (m_apply m) ks1 rec1 = Some rec2 ->
     dget rec2 k = Some v -> dget (m_apply m) k = Some fname -> fname <> EmptyString ->
     (forall f, dget gl fname <> Some (PyFunc f)) ->
     transform_record gl (ms1 ++ m :: ms2) raw = None /\
     process_transformed_records gl (ms1 ++ m :: ms2) filters (raw :: rs) =
       process_transformed_records gl (ms1 ++ m :: ms2) filters rs)) /\
  process_transformed_records [] ([] ++ mkMetric ["v"] [("v", "nosuch")] :: []) (fun r => Some r)
    ([("v", SStr "1")] :: [[("w", SStr "2")]]) =
  process_transformed_records [] ([] ++ mkMetric ["v"] [("v", "nosuch")] :: []) (fun r => Some r)
    [[("w", SStr "2")]].
Proof.
  pose proof (modify_unknown_function_skipped [("upper", fun v => Ok v)] "nosuch" "state"
                [("state", SStr "idle")] ["upper"] [] eq_refl) as H.
  split; [exact H|].
  destruct H as (_ & _ & _ & _ & Hf).
  refine (proj2 (Hf [] [] [] (mkMetric ["v"] [("v", "nosuch")]) [] [] "v" "nosuch"
                    (fun r => Some r) [("v", SStr "1")] [("v", SStr "1")] [("v", SStr "1")]
                    [[("w", SStr "2")]] (SStr "1") eq_refl _ eq_refl eq_refl eq_refl eq_refl _ _)).
  - discriminate.
  - discriminate.
  - intros f. discriminate.
Defined.

End TransformFacts.

(** ** [map] and [substitute_placeholders] *)

Module InfoMoreFacts.
Import Store InfoMore RenderFacts.
Local Open Scope list_scope.

Lemma opt_set_dget (r item : record) (k0 k : string) :
  dget (match dget item k0 with Some v => dset r k0 v | None => r end) k =
  if String.eqb k k0 && dmem item k0 then dget item k0 else dget r k.
Proof.
  unfold dmem. destruct (dget item k0) as [v|] eqn:E;
    destruct (String.eqb_spec k k0) as [-> | Hne]; simpl.
  - apply dget_dset_eq.
  - apply dget_dset_neq, Hne.
  - reflexivity.
  - reflexivity.
Qed.

Lemma map_fold_dget (m : list (string * string)) (item acc : record) (k : string) :
  dget (fold_left (fun acc km => match dget item (fst km) with
                                 | None => acc
                                 | Some v => dset acc (snd km) v
                                 end) m acc) k =
  match rev (List.filter (fun km => String.eqb (snd km) k && dmem item (fst km)) m) with
  | km :: _ => dget item (fst km)
  | [] => dget acc k
  end.
Proof.
  induction m as [| [src tgt] m IH] using rev_ind; [reflexivity|].
  rewrite fold_left_app, List.filter_app, rev_app_distr. simpl.
  unfold dmem. destruct (dget item src) as [v|] eqn:E; simpl.
  - destruct (String.eqb_spec tgt k) as [-> | Hne]; simpl.
    + rewrite dget_dset_eq. symmetry; exact E.
    + rewrite dget_dset_neq by congruence. exact IH.
  - rewrite andb_false_r. exact IH.
Qed.

(** [Info.map] keeps the units and their order; in each mapped item, an
    internal key ([__type], [__id], [__prefix]) present in the item keeps
    its value, and any other key [k] holds the value of the source key of
    the last mapping entry [key: k] whose [key] is in the item; a key that
    no such entry targets is absent. *)
Theorem map_store_lookup (mapping_dict : list (string * string)) (d : store)
  (j : nat) (unit : string) (item : record) (k : string) :
  nth_error d j = Some (unit, item) ->
  nth_error (map_store mapping_dict d) j = Some (unit, map_item mapping_dict item) /\
  dget (map_item mapping_dict item) k =
    if internal_key k && dmem item k then dget item k
    else match rev (List.filter (fun km => String.eqb (snd km) k && dmem item (fst km))
                      mapping_dict) with
         | km :: _ => dget item (fst km)
         | [] => None
         end.
Proof.
  intros Hj. split.
  - unfold map_store. rewrite nth_error_map, Hj. reflexivity.
  - unfold map_item. cbv zeta. rewrite !opt_set_dget, map_fold_dget.
    unfold internal_key. simpl.
    destruct (String.eqb_spec k "__prefix") as [-> | H1]; simpl;
      [destruct (dmem item "__prefix"); reflexivity|].
    destruct (String.eqb_spec k "__id") as [-> | H2]; simpl;
      [destruct (dmem item "__id"); reflexivity|].
    destruct (String.eqb_spec k "__type") as [-> | H3]; simpl;
      [destruct (dmem item "__type"); reflexivity|].
    reflexivity.
Qed.

Lemma map_store_lookup_witness :
  nth_error (map_store [("State", "state"); ("Host", "state")]
               [("n1", [("State", SStr "up"); ("__type", SStr "node")])]) 0 =
    Some ("n1", map_item [("State", "state"); ("Host", "state")]
                  [("State", SStr "up"); ("__type", SStr "node")]) /\
  dget (map_item [("State", "state"); ("Host", "state")]
          [("State", SStr "up"); ("__type", SStr "node")]) "state" =
    if internal_key "state" && dmem [("State", SStr "up"); ("__type", SStr "node")] "state"
    then dget [("State", SStr "up"); ("__type", SStr "node")] "state"
    else match rev (List.filter (fun km => String.eqb (snd km) "state"
                                  && dmem [("State", SStr "up"); ("__type", SStr "node")] (fst km))
                      [("State", "state"); ("Host", "state")]) with
         | km :: _ => dget [("State", SStr "up"); ("__type", SStr "node")] (fst km)
         | [] => None
         end.
Proof. apply (map_store_lookup _ _ 0 "n1" _ "state"). reflexivity. Defined.

Lemma str_app_assoc (a b c : string) :
  String.append (String.append a b) c = String.append a (String.append b c).
Proof. induction a as [| x a IH]; [reflexivity | exact (f_equal (String x) IH)]. Qed.

Lemma str_app_cons (c : ascii) (a b : string) :
  String.append (String c a) b = String c (String.append a b).
Proof. reflexivity. Qed.

Lemma str_app_nil_r (a : string) : String.append a EmptyString = a.
Proof. induction a as [| x a IH]; [reflexivity | exact (f_equal (String x) IH)]. Qed.

Lemma subst_scan_no_values (t : string) :
  subst_scan [] None t = t /\
  forall b, subst_scan [] (Some b) t = String lbrace (String.append b t).
Proof.
  induction t as [| c t [IHn IHs]]; simpl.
  - split; [reflexivity|]. intros b. rewrite str_app_nil_r. reflexivity.
  - split.
    + destruct (Ascii.eqb_spec c lbrace) as [-> | Hne].
      * rewrite IHs. reflexivity.
      * rewrite IHn. reflexivity.
    + intros b. destruct (Ascii.eqb_spec c rbrace) as [-> | H1].
      * simpl. rewrite IHn, str_app_cons, str_app_assoc. reflexivity.
      * destruct (Ascii.eqb_spec c Regex.newline) as [-> | H2].
        -- rewrite IHn. reflexivity.
        -- rewrite IHs, str_app_assoc. reflexivity.
Qed.

(** With no values, [substitute_placeholders] returns the template as it
    is, whatever its braces and newlines. *)
Theorem substitute_placeholders_no_values (template : string) :
  substitute_placeholders template [] = template.
Proof. apply subst_scan_no_values. Qed.

Lemma subst_scan_inside (values : list (string * string)) (k b0 rest : string) :
  (forall c, In c (list_ascii_of_string k) -> c <> rbrace /\ c <> Regex.newline) ->
  subst_scan values (Some b0) (String.append k (String rbrace rest)) =
  String.append (match dget values (String.append b0 k) with
                 | Some v => v
                 | None => String lbrace (String.append (String.append b0 k) (String rbrace EmptyString))
                 end) (subst_scan values None rest).
Proof.
  revert b0; induction k as [| c k IH]; intros b0 Hk; simpl.
  - rewrite str_app_nil_r. reflexivity.
  - destruct (Hk c (or_introl eq_refl)) as [H1 H2].
    destruct (Ascii.eqb_spec c rbrace) as [E | _]; [contradiction|].
    destruct (Ascii.eqb_spec c Regex.newline) as [E | _]; [contradiction|].
    rewrite IH by (intros x Hx; apply Hk; right; exact Hx).
    rewrite str_app_assoc. reflexivity.
Qed.

(** A placeholder [{k}] ([k] without ["}"] or newline) preceded by text
    without ["{"] is replaced by [values[k]], or kept as ["{k}"] when [k]
    is not a key of [values]; the rest of the template is processed on
    its own. *)
Theorem substitute_placeholders_split (values : list (string * string)) (a k b : string) :
  (forall c, In c (list_ascii_of_string a) -> c <> lbrace) ->
  (forall c, In c (list_ascii_of_string k) -> c <> rbrace /\ c <> Regex.newline) ->
  substitute_placeholders (String.append a (String lbrace (String.append k (String rbrace b)))) values =
  String.append a
    (String.append (match dget values k with
                    | Some v => v
                    | None => String lbrace (String.append k (String rbrace EmptyString))
                    end) (substitute_placeholders b values)).
Proof.
  intros Ha Hk. unfold substitute_placeholders.
  induction a as [| c a IH]; simpl.
  - rewrite (subst_scan_inside values k EmptyString b Hk). reflexivity.
  - destruct (Ascii.eqb_spec c lbrace) as [E | _];
      [exfalso; exact (Ha c (or_introl eq_refl) E)|].
    rewrite IH by (intros x Hx; apply Ha; right; exact Hx). reflexivity.
Qed.

Lemma substitute_placeholders_split_witness :
  substitute_placeholders (String.append "up: " (String lbrace (String.append "instance" (String rbrace "/x")))) [("instance", "n1")] =
  String.append "up: "
    (String.append (match dget [("instance", "n1")] "instance" with
                    | Some v => v
                    | None => String lbrace (String.append "instance" (String rbrace EmptyString))
                    end) (substitute_placeholders "/x" [("instance", "n1")])).
Proof.
  apply substitute_placeholders_split.
  - intros c Hc. simpl in Hc.
    repeat (destruct Hc as [<- | Hc]; [discriminate|]). contradiction.
  - intros c Hc. simpl in Hc.
    repeat (destruct Hc as [<- | Hc]; [split; discriminate|]). contradiction.
Defined.

End InfoMoreFacts.

(** ** [BenchRepo.apply_pattern] on a list of elements *)

Module RepoListFacts.
Import Store RepoMore.

Lemma nat_set_add_in (s : list nat) (x y : nat) : In y (nat_set_add s x) <-> In y s \/ y = x.
Proof.
  unfold nat_set_add. destruct (existsb (Nat.eqb x) s) eqn:E.
  - apply existsb_exists in E as [z [Hz Hxz]]. apply Nat.eqb_eq in Hxz; subst.
    split; [tauto|]. intros [H|H]; [exact H|subst; exact Hz].
  - rewrite in_app_iff. simpl. split; intros [H|H]; auto; destruct H; auto; contradiction.
Qed.

Lemma nodup_snoc (s : list nat) (x : nat) : List.NoDup s -> ~ In x s -> List.NoDup (s ++ [x]).
Proof.
  induction s as [|a s IH]; intros Hnd Hx; simpl.
  - constructor; [auto|constructor].
  - inversion Hnd as [|? ? Ha Hs]; subst. constructor.
    + rewrite in_app_iff. simpl. intros [H|[H|H]]; [contradiction|subst; apply Hx; left; reflexivity|exact H].
    + apply IH; [exact Hs|]. intros H; apply Hx; right; exact H.
Qed.

Lemma nat_set_add_nodup (s : list nat) (x : nat) : List.NoDup s -> List.NoDup (nat_set_add s x).
Proof.
  intros H. unfold nat_set_add. destruct (existsb (Nat.eqb x) s) eqn:E; [exact H|].
  apply nodup_snoc; [exact H|]. intros Hin.
  assert (existsb (Nat.eqb x) s = true) by (apply existsb_exists; exists x; split; [exact Hin|apply Nat.eqb_refl]).
  congruence.
Qed.

Lemma nth_flag_cons b fl idx x :
  (idx <= x /\ nth_error (b :: fl) (x - idx) = Some true) <->
  (x = idx /\ b = true) \/ (S idx <= x /\ nth_error fl (x - S idx) = Some true).
Proof.
  destruct (Nat.lt_trichotomy x idx) as [H|[H|H]].
  - split; [intros [H1 _]; lia | intros [[H1 _]|[H1 _]]; lia].
  - subst. rewrite Nat.sub_diag. simpl. split.
    + intros [_ H]. left. split; congruence.
    + intros [[_ H]|[H _]]; [split; [lia|congruence] | lia].
  - replace (x - idx) with (S (x - S idx)) by lia. simpl. split.
    + intros [_ H1]. right. split; [lia|exact H1].
    + intros [[H1 _]|[_ H1]]; [lia|split; [lia|exact H1]].
Qed.

Lemma list_marks_spec ex inc es : forall idx (acc : list nat),
  match elem_flags ex inc idx es with
  | Err e => list_marks ex inc idx es acc = Err e
  | Ok fl => exists ks, list_marks ex inc idx es acc = Ok ks /\
      length fl = length es /\
      (forall x, In x ks <-> In x acc \/ (idx <= x /\ nth_error fl (x - idx) = Some true)) /\
      (List.NoDup acc -> List.NoDup ks)
  end.
Proof.
  induction es as [|u es IH]; intros idx acc.
  - simpl. exists acc. split; [reflexivity|]. split; [reflexivity|]. split; [|auto].
    intros x. split; [auto|]. intros [H|[_ H]]; [exact H|destruct (x - idx); discriminate].
  - cbn [elem_flags list_marks]. unfold elem_removed.
    destruct (if truthy ex then check_elem idx u ex else Ok false) as [b1|e]; cbn [bind]; [|reflexivity].
    destruct (if truthy inc then check_elem idx u inc else Ok true) as [b2|e]; cbn [bind]; [|reflexivity].
    specialize (IH (S idx) (let a := if b1 then nat_set_add acc idx else acc in
                            if b2 then a else nat_set_add a idx)).
    destruct (elem_flags ex inc (S idx) es) as [fl|e]; cbn [bind]; [|exact IH].
    destruct IH as [ks [Hks [Hlen [Hin Hnd]]]].
    exists ks. split; [exact Hks|]. split; [simpl; congruence|]. split.
    + intros x. rewrite Hin, nth_flag_cons.
      assert (Hacc : In x (let a := if b1 then nat_set_add acc idx else acc in
                           if b2 then a else nat_set_add a idx)
                     <-> In x acc \/ (x = idx /\ (b1 || negb b2) = true)).
      { destruct b1, b2; simpl; rewrite ?nat_set_add_in; intuition congruence. }
      rewrite Hacc. tauto.
    + intros H. apply Hnd. destruct b1, b2; simpl; repeat apply nat_set_add_nodup; exact H.
Qed.

Lemma insert_desc_in x l y : In y (insert_desc x l) <-> x = y \/ In y l.
Proof.
  induction l as [|a l IH]; simpl; [tauto|].
  destruct (Nat.ltb a x); simpl; [tauto|]. rewrite IH. tauto.
Qed.

Lemma insert_desc_sorted x l :
  StronglySorted (fun a b => b < a) l -> ~ In x l ->
  StronglySorted (fun a b => b < a) (insert_desc x l).
Proof.
  induction l as [|a l IH]; intros Hs Hx; simpl.
  - repeat constructor.
  - inversion Hs as [|? ? Hl Hf]; subst.
    destruct (Nat.ltb a x) eqn:E.
    + apply Nat.ltb_lt in E. constructor; [exact Hs|]. constructor; [exact E|].
      eapply List.Forall_impl; [|exact Hf]. simpl. intros b Hb. lia.
    + apply Nat.ltb_ge in E. assert (x <> a) by (intros ->; apply Hx; left; reflexivity).
      constructor.
      * apply IH; [exact Hl|]. intros H'; apply Hx; right; exact H'.
      * apply List.Forall_forall. intros b Hb. apply insert_desc_in in Hb.
        destruct Hb as [<-|Hb]; [lia|]. rewrite List.Forall_forall in Hf. exact (Hf b Hb).
Qed.

Lemma sort_desc_spec l :
  (forall y, In y (sort_desc l) <-> In y l) /\
  (List.NoDup l -> StronglySorted (fun a b => b < a) (sort_desc l)).
Proof.
  induction l as [|a l [Hin Hs]]; simpl.
  - split; [tauto|intros _; constructor].
  - unfold sort_desc in *. simpl. split.
    + intros y. rewrite insert_desc_in, Hin. tauto.
    + intros Hnd. inversion Hnd; subst. apply insert_desc_sorted; [auto|rewrite Hin; assumption].
Qed.

Lemma keep_from_all {A} p n (l : list A) :
  (forall i, n <= i -> p i = true) -> keep_from p n l = l.
Proof.
  revert n. induction l as [|x l IH]; intros n H; simpl; [reflexivity|].
  rewrite H by lia. f_equal. apply IH. intros i Hi. apply H. lia.
Qed.

Lemma keep_from_ext {A} p q n (l : list A) :
  (forall i, n <= i -> p i = q i) -> keep_from p n l = keep_from q n l.
Proof.
  revert n. induction l as [|x l IH]; intros n H; simpl; [reflexivity|].
  rewrite H by lia. rewrite (IH (S n)) by (intros i Hi; apply H; lia). reflexivity.
Qed.

Lemma del_nth_keep {A} (l : list A) k n :
  k < length l -> del_nth l k = Some (keep_from (fun i => negb (Nat.eqb i (n + k))) n l).
Proof.
  revert k n. induction l as [|x l IH]; intros k n Hk; simpl in Hk |- *; [lia|].
  destruct k as [|k].
  - rewrite Nat.add_0_r, Nat.eqb_refl. simpl. f_equal. symmetry. apply keep_from_all.
    intros i Hi. apply negb_true_iff, Nat.eqb_neq. lia.
  - rewrite (IH k (S n)) by lia. replace (S n + k) with (n + S k) by lia.
    destruct (Nat.eqb n (n + S k)) eqn:E; [apply Nat.eqb_eq in E; lia|]. reflexivity.
Qed.

Lemma del_nth_length {A} (l : list A) k l' : del_nth l k = Some l' -> length l' = pred (length l).
Proof.
  revert k l'. induction l as [|x l IH]; intros k l' H; simpl in H; [discriminate|].
  destruct k as [|k]; [injection H as <-; reflexivity|].
  destruct (del_nth l k) as [l''|] eqn:E; [|discriminate]. injection H as <-.
  simpl. rewrite (IH k l'' E). destruct l as [|y l]; [simpl in E; discriminate|reflexivity].
Qed.

Lemma keep_from_del {A} p k n (l : list A) :
  (forall i, k <= i -> p i = true) ->
  keep_from p n (keep_from (fun i => negb (Nat.eqb i k)) n l) =
  keep_from (fun i => p i && negb (Nat.eqb i k)) n l.
Proof.
  revert n. induction l as [|x l IH]; intros n H; simpl; [reflexivity|].
  destruct (Nat.eq_dec n k) as [->|Hnk].
  - rewrite Nat.eqb_refl, andb_false_r. simpl.
    rewrite (keep_from_all (fun i => negb (Nat.eqb i k)) (S k) l)
      by (intros i Hi; apply negb_true_iff, Nat.eqb_neq; lia).
    rewrite (keep_from_all p k l) by exact H.
    rewrite (keep_from_all _ (S k) l); [reflexivity|].
    intros i Hi. rewrite H by lia. simpl. apply negb_true_iff, Nat.eqb_neq. lia.
  - apply Nat.eqb_neq in Hnk. rewrite Hnk. simpl.
    destruct (p n); simpl; [f_equal|]; apply IH; exact H.
Qed.

Lemma del_indices_keep {A} ks : forall (l : list A),
  StronglySorted (fun a b => b < a) ks -> (forall k, In k ks -> k < length l) ->
  del_indices l ks = Some (keep_from (fun i => negb (existsb (Nat.eqb i) ks)) 0 l).
Proof.
  induction ks as [|k ks IH]; intros l Hs Hb; simpl.
  - f_equal. symmetry. apply keep_from_all. intros; reflexivity.
  - inversion Hs as [|? ? Hs' Hf]; subst.
    assert (E : del_nth l k = Some (keep_from (fun i => negb (Nat.eqb i k)) 0 l))
      by (apply (del_nth_keep l k 0); apply Hb; left; reflexivity).
    rewrite E. rewrite IH.
    + f_equal. rewrite keep_from_del.
      * apply keep_from_ext. intros i _. simpl. rewrite negb_orb, andb_comm. reflexivity.
      * intros i Hi. apply negb_true_iff. destruct (existsb (Nat.eqb i) ks) eqn:E2; [|reflexivity].
        apply existsb_exists in E2 as [j [Hj Hij]]. apply Nat.eqb_eq in Hij; subst j.
        rewrite List.Forall_forall in Hf. specialize (Hf i Hj). simpl in Hf. lia.
    + exact Hs'.
    + intros j Hj. rewrite (del_nth_length l k _ E).
      assert (k < length l) by (apply Hb; left; reflexivity).
      rewrite List.Forall_forall in Hf. specialize (Hf j Hj). simpl in Hf. lia.
Qed.

Lemma keep_unflagged_cons {A} b fl x (l : list A) :
  keep_unflagged (b :: fl) (x :: l) = if b then keep_unflagged fl l else x :: keep_unflagged fl l.
Proof. unfold keep_unflagged. simpl. destruct b; reflexivity. Qed.

Lemma keep_from_flags {A} (l : list A) : forall fl n p,
  length fl = length l ->
  (forall j b, nth_error fl j = Some b -> p (n + j) = negb b) ->
  keep_from p n l = keep_unflagged fl l.
Proof.
  induction l as [|x l IH]; intros [|b fl] n p Hl H; simpl in Hl; try discriminate.
  - reflexivity.
  - rewrite keep_unflagged_cons. simpl.
    assert (Hp : p n = negb b) by (rewrite <- (Nat.add_0_r n); apply H; reflexivity).
    rewrite Hp. destruct b; simpl; [|f_equal]; apply IH; try lia;
      intros j b' Hj; replace (S n + j) with (n + S j) by lia; apply H; exact Hj.
Qed.

(** [BenchRepo.apply_pattern] on a list deletes, from the last index to
    the first, exactly the elements whose [check_unit] result says
    "excluded or not included": the result is the list of the other
    elements in their order; an index is never out of range, and the
    first exception raised by [check_unit] is the result. *)
Theorem apply_pattern_list_keeps_unflagged ex inc es :
  apply_pattern_list ex inc es =
  (let* fl := elem_flags ex inc 0 es in Ok (Some (keep_unflagged fl es))).
Proof.
  unfold apply_pattern_list. pose proof (list_marks_spec ex inc es 0 []) as H.
  destruct (elem_flags ex inc 0 es) as [fl|e]; cbn [bind].
  - destruct H as [ks [Hks [Hlen [Hin Hnd]]]]. rewrite Hks. cbn [bind].
    destruct (sort_desc_spec ks) as [Hsin Hss].
    rewrite del_indices_keep.
    + f_equal. f_equal. apply keep_from_flags; [exact Hlen|]. intros j b Hj. simpl.
      f_equal. destruct (existsb (Nat.eqb j) (sort_desc ks)) eqn:E.
      * apply existsb_exists in E as [y [Hy Hjy]]. apply Nat.eqb_eq in Hjy; subst y.
        apply Hsin, Hin in Hy. destruct Hy as [[]|[_ Hy]]. rewrite Nat.sub_0_r in Hy. congruence.
      * destruct b; [|reflexivity]. exfalso.
        assert (In j (sort_desc ks))
          by (apply Hsin, Hin; right; split; [lia|rewrite Nat.sub_0_r; exact Hj]).
        assert (existsb (Nat.eqb j) (sort_desc ks) = true)
          by (apply existsb_exists; exists j; split; [assumption|apply Nat.eqb_refl]).
        congruence.
    + apply Hss. apply Hnd. constructor.
    + intros k Hk. apply Hsin, Hin in Hk. destruct Hk as [[]|[_ Hk]].
      rewrite Nat.sub_0_r in Hk. rewrite <- Hlen. apply nth_error_Some. rewrite Hk. discriminate.
  - rewrite H. reflexivity.
Qed.

(** A non-empty str [exclude] rule on a non-empty list raises
    [TypeError]: the unit name is the int index, and [re.search] takes
    only str subjects.  (The pattern is one [compile] accepts, a valid
    Python pattern, so that [re.search] gets as far as the subject; an
    invalid pattern raises [re.error] first.) *)
Theorem apply_pattern_list_str_rule_raises p inc u es :
  p <> EmptyString -> Regex.compile p <> None ->
  apply_pattern_list (PatStr p) inc (u :: es) = Err TypeError.
Proof.
  intros Hp Hc. unfold apply_pattern_list. cbn [list_marks].
  assert (Ht : truthy (PatStr p) = true)
    by (simpl; apply negb_true_iff, String.eqb_neq; exact Hp).
  rewrite Ht. unfold check_elem, py_re. destruct (Regex.compile p); [reflexivity|congruence].
Qed.

Lemma apply_pattern_list_str_rule_raises_witness :
  (String "x" EmptyString <> EmptyString) /\ (Regex.compile (String "x" EmptyString) <> None) /\
  apply_pattern_list (PatStr "x") (PatList []) ([("a", SStr "1")] :: []) = Err TypeError.
Proof.
  split; [discriminate|]. split; [vm_compute; discriminate|].
  apply apply_pattern_list_str_rule_raises; [discriminate|vm_compute; discriminate].
Defined.

End RepoListFacts.

(** ** [BenchRepo.deep_update] *)

Module DeepUpdateFacts.
Import PyDict Merge RepoMore RenderFacts.

Lemma dget_notin {A} (d : list (string * A)) (k : string) :
  ~ In k (map fst d) -> dget d k = None.
Proof.
  induction d as [|[k0 v0] d IH]; intros H; simpl; [reflexivity|].
  destruct (String.eqb_spec k k0) as [->|Hne].
  - exfalso. apply H. left. reflexivity.
  - apply IH. intros H'. apply H. right. exact H'.
Qed.

Lemma dget_in {A} (d : list (string * A)) (k : string) (v : A) :
  dget d k = Some v -> In k (map fst d).
Proof.
  induction d as [|[k0 v0] d IH]; simpl; intros H; [discriminate|].
  destruct (String.eqb_spec k k0) as [->|Hne]; [left; reflexivity|right; exact (IH H)].
Qed.

Lemma dget_head {A} (d : list (string * A)) (k : string) (v : A) :
  dget ((k, v) :: d) k = Some v.
Proof. simpl. rewrite String.eqb_refl. reflexivity. Qed.

Lemma dget_tail {A} (d : list (string * A)) (k k0 : string) (v : A) :
  k <> k0 -> dget ((k0, v) :: d) k = dget d k.
Proof. intros H. simpl. apply String.eqb_neq in H. rewrite H. reflexivity. Qed.

Lemma deep_update_cons (t : val) (k : string) (v : val) (rest : list (string * val)) :
  deep_update t (VDict ((k, v) :: rest)) =
  match t with
  | VDict td =>
      match v with
      | VDict _ =>
          match deep_update (match dget td k with Some x => x | None => VDict [] end) v with
          | Some nv => deep_update (VDict (dset td k nv)) (VDict rest)
          | None => None
          end
      | _ => deep_update (VDict (dset td k v)) (VDict rest)
      end
  | _ => None
  end.
Proof. reflexivity. Qed.

(** On dicts whose keys are distinct (as a Python dict's are), a
    successful [deep_update(target, override)] returns a dict in which a
    key absent from [override] keeps its value in [target], a key mapped
    to a non-dict value in [override] takes that value, and a key mapped
    to a dict takes the result of the nested [deep_update] on the target's
    value there ([{}] when the target lacks the key). *)
Theorem deep_update_lookup (td ov : list (string * val)) (r : val) :
  List.NoDup (map fst ov) -> deep_update (VDict td) (VDict ov) = Some r ->
  exists rd, r = VDict rd /\
    forall k, dget rd k =
      match dget ov k with
      | None => dget td k
      | Some (VDict w) =>
          deep_update (match dget td k with Some x => x | None => VDict [] end) (VDict w)
      | Some v => Some v
      end.
Proof.
  revert td r. induction ov as [|[k0 v0] ov IH]; intros td r Hnd H.
  - simpl in H. injection H as <-. exists td. split; [reflexivity|]. intros k. reflexivity.
  - inversion Hnd as [|? ? Hk0 Hnd']; subst. rewrite deep_update_cons in H.
    assert (Hk0' : dget ov k0 = None) by (apply dget_notin; exact Hk0).
    destruct v0 as [s|z| |w0].
    4: destruct (deep_update (match dget td k0 with Some x => x | None => VDict [] end) (VDict w0))
         as [nv|] eqn:Hsub; [|discriminate].
    all: destruct (IH _ _ Hnd' H) as [rd [-> Hrd]]; exists rd; split; [reflexivity|];
      intros k; rewrite Hrd; destruct (String.eqb_spec k k0) as [->|Hne];
      [rewrite Hk0', dget_dset_eq, dget_head
      |rewrite dget_tail by exact Hne; rewrite dget_dset_neq by exact Hne; reflexivity].
    1-3: reflexivity.
    exact (eq_sym Hsub).
Qed.

Lemma deep_update_lookup_witness :
  List.NoDup (map fst [("a", VDict [("y", VInt 3)]); ("c", VStr "s")]) /\
  deep_update (VDict [("a", VDict [("x", VInt 1)]); ("b", VInt 2)])
              (VDict [("a", VDict [("y", VInt 3)]); ("c", VStr "s")]) =
    Some (VDict [("a", VDict [("x", VInt 1); ("y", VInt 3)]); ("b", VInt 2); ("c", VStr "s")]) /\
  exists rd, VDict [("a", VDict [("x", VInt 1); ("y", VInt 3)]); ("b", VInt 2); ("c", VStr "s")]
             = VDict rd /\
    forall k, dget rd k =
      match dget [("a", VDict [("y", VInt 3)]); ("c", VStr "s")] k with
      | None => dget [("a", VDict [("x", VInt 1)]); ("b", VInt 2)] k
      | Some (VDict w) =>
          deep_update (match dget [("a", VDict [("x", VInt 1)]); ("b", VInt 2)] k with
                       | Some x => x | None => VDict [] end) (VDict w)
      | Some v => Some v
      end.
Proof.
  assert (H1 : List.NoDup (map fst [("a", VDict [("y", VInt 3)]); ("c", VStr "s")])).
  { simpl. constructor; [simpl; intros [H|H]; [discriminate|exact H]|].
    constructor; [simpl; tauto|constructor]. }
  assert (H2 : deep_update (VDict [("a", VDict [("x", VInt 1)]); ("b", VInt 2)])
              (VDict [("a", VDict [("y", VInt 3)]); ("c", VStr "s")]) =
    Some (VDict [("a", VDict [("x", VInt 1); ("y", VInt 3)]); ("b", VInt 2); ("c", VStr "s")]))
    by reflexivity.
  split; [exact H1|]. split; [exact H2|].
  exact (deep_update_lookup _ _ _ H1 H2).
Defined.

(** On an override whose keys are distinct, [deep_update(target,
    override)] raises exactly when, at some key of [override] mapped to a
    dict [w], the nested [deep_update] of the target's value there (or
    [{}]) with [w] raises.  The nested call on a target that is not a dict
    (a str, int or None) raises exactly when [w] is not empty; with an
    empty [w] it returns the target unchanged. *)
Theorem deep_update_fails (td ov : list (string * val)) :
  List.NoDup (map fst ov) ->
  (deep_update (VDict td) (VDict ov) = None <->
   exists k w, dget ov k = Some (VDict w) /\
     deep_update (match dget td k with Some x => x | None => VDict [] end) (VDict w) = None) /\
  (forall x w, is_dict x = false -> (deep_update x (VDict w) = None <-> w <> [])) /\
  (forall x, deep_update x (VDict []) = Some x).
Proof.
  intros Hnd0. split; [|split].
  2: { intros x w Hx. destruct w as [|[k v] w].
       - simpl. split; [discriminate|]. intros H; exfalso; apply H; reflexivity.
       - destruct x; try discriminate Hx; simpl; split; intros _; [discriminate|reflexivity
           |discriminate|reflexivity|discriminate|reflexivity]. }
  2: { intros x. reflexivity. }
  revert td Hnd0. induction ov as [|[k0 v0] ov IH]; intros td Hnd.
  - simpl. split; [discriminate|]. intros [k [w [H _]]]. discriminate.
  - inversion Hnd as [|? ? Hk0 Hnd']; subst. rewrite deep_update_cons.
    destruct v0 as [s|z| |w0].
    4: destruct (deep_update (match dget td k0 with Some x => x | None => VDict [] end) (VDict w0))
         as [nv|] eqn:Hsub;
       [|split; [intros _; exists k0, w0; split; [apply dget_head|exact Hsub]|reflexivity]].
    all: rewrite (IH _ Hnd'); split;
      intros [k [w [H1 H2]]];
      [assert (Hne : k <> k0) by (intros ->; apply Hk0; exact (dget_in _ _ _ H1));
       exists k, w; rewrite dget_tail by exact Hne; rewrite dget_dset_neq in H2 by exact Hne;
       split; assumption
      |destruct (String.eqb_spec k k0) as [->|Hne];
       [rewrite dget_head in H1; try discriminate H1; injection H1 as <-; congruence
       |exists k, w; rewrite dget_tail in H1 by exact Hne;
        rewrite dget_dset_neq by exact Hne; split; assumption]].
Qed.

Lemma deep_update_fails_witness :
  List.NoDup (map fst [("a", VDict [("y", VInt 3)])]) /\
  ((deep_update (VDict [("a", VInt 1)]) (VDict [("a", VDict [("y", VInt 3)])]) = None <->
    exists k w, dget [("a", VDict [("y", VInt 3)])] k = Some (VDict w) /\
      deep_update (match dget [("a", VInt 1)] k with Some x => x | None => VDict [] end)
                  (VDict w) = None) /\
   (forall x w, is_dict x = false -> (deep_update x (VDict w) = None <-> w <> [])) /\
   (forall x, deep_update x (VDict []) = Some x)).
Proof.
  assert (H1 : List.NoDup (map fst [("a", VDict [("y", VInt 3)])]))
    by (simpl; constructor; [simpl; tauto|constructor]).
  split; [exact H1|]. exact (deep_update_fails _ _ H1).
Defined.

End DeepUpdateFacts.

(** ** [flatten_json] *)

Module FlattenFacts.
Import PyDict Store RepoMore RenderFacts DeepUpdateFacts.

Lemma dget_some_of_in {A} (d : list (string * A)) (k : string) :
  In k (map fst d) -> exists v, dget d k = Some v.
Proof.
  induction d as [|[k0 v0] d IH]; simpl; intros H; [contradiction|].
  destruct (String.eqb_spec k k0) as [->|Hne]; [eauto|].
  destruct H as [H|H]; [congruence|exact (IH H)].
Qed.

Lemma dset_keys {A} (d : list (string * A)) (k k' : string) (v : A) :
  In k' (map fst (dset d k v)) <-> k' = k \/ In k' (map fst d).
Proof.
  induction d as [|[k0 v0] d IH]; simpl; [intuition congruence|].
  destruct (String.eqb_spec k k0) as [->|Hne]; simpl; [intuition congruence|].
  rewrite IH. intuition congruence.
Qed.

Lemma dset_nodup {A} (d : list (string * A)) (k : string) (v : A) :
  List.NoDup (map fst d) -> List.NoDup (map fst (dset d k v)).
Proof.
  induction d as [|[k0 v0] d IH]; simpl; intros H.
  - constructor; [simpl; tauto|constructor].
  - inversion H as [|? ? H1 H2]; subst.
    destruct (String.eqb_spec k k0) as [->|Hne]; simpl; constructor; auto.
    rewrite dset_keys. intros [->|H']; [congruence|contradiction].
Qed.

Lemma dunion_nodup {A} (a b : list (string * A)) :
  List.NoDup (map fst a) -> List.NoDup (map fst (dunion a b)).
Proof.
  revert a. induction b as [|[k0 v0] b IH]; intros a H; [exact H|].
  unfold dunion. simpl. apply IH. apply dset_nodup. exact H.
Qed.

Lemma dget_dunion {A} (a b : list (string * A)) (k : string) :
  List.NoDup (map fst b) ->
  dget (dunion a b) k = match dget b k with Some v => Some v | None => dget a k end.
Proof.
  revert a. induction b as [|[k0 v0] b IH]; intros a H; [reflexivity|].
  inversion H as [|? ? H1 H2]; subst.
  change (dunion a ((k0, v0) :: b)) with (dunion (dset a k0 v0) b).
  rewrite (IH _ H2). destruct (String.eqb_spec k k0) as [->|Hne].
  - rewrite (dget_notin b k0 H1), dget_head. apply dget_dset_eq.
  - rewrite dget_tail by exact Hne. rewrite dget_dset_neq by exact Hne. reflexivity.
Qed.

Lemma dget_dunion_notin {A} (a b : list (string * A)) (k : string) :
  dget b k = None -> dget (dunion a b) k = dget a k.
Proof.
  revert a. induction b as [|[k0 v0] b IH]; intros a H; [reflexivity|].
  simpl in H. destruct (String.eqb_spec k k0) as [->|Hne]; [discriminate|].
  change (dunion a ((k0, v0) :: b)) with (dunion (dset a k0 v0) b).
  rewrite (IH _ H). apply dget_dset_neq. exact Hne.
Qed.

Lemma ddel_none {A} (d : list (string * A)) (k : string) :
  ddel d k = None <-> dget d k = None.
Proof.
  induction d as [|[k0 v0] d IH]; simpl; [tauto|].
  destruct (String.eqb k k0); [split; discriminate|].
  destruct (ddel d k); rewrite <- IH; split; congruence.
Qed.

Lemma ddel_nodup {A} (d : list (string * A)) (k : string) :
  List.NoDup (map fst d) -> In k (map fst d) ->
  exists d', ddel d k = Some d' /\ List.NoDup (map fst d') /\
    forall k', dget d' k' = if String.eqb k' k then None else dget d k'.
Proof.
  induction d as [|[k0 v0] d IH]; simpl; intros Hnd Hin; [contradiction|].
  inversion Hnd as [|? ? H1 H2]; subst.
  destruct (String.eqb_spec k k0) as [->|Hne].
  - exists d. split; [reflexivity|]. split; [exact H2|]. intros k'.
    destruct (String.eqb_spec k' k0) as [->|Hne']; [exact (dget_notin d k0 H1)|].
    reflexivity.
  - destruct Hin as [Hin|Hin]; [congruence|].
    destruct (IH H2 Hin) as [d' [Hd' [Hnd' Hget]]]. rewrite Hd'.
    exists ((k0, v0) :: d'). split; [reflexivity|]. split.
    + simpl. constructor; [|exact Hnd']. intros Hk0.
      destruct (dget_some_of_in d' k0 Hk0) as [v Hv]. rewrite Hget in Hv.
      destruct (String.eqb_spec k0 k) as [->|_]; [congruence|].
      rewrite (dget_notin d k0 H1) in Hv. discriminate.
    + intros k'. destruct (String.eqb_spec k' k0) as [->|Hne'].
      * rewrite dget_head. destruct (String.eqb_spec k0 k) as [->|_]; [congruence|].
        reflexivity.
      * rewrite dget_tail by exact Hne'. rewrite Hget.
        destruct (String.eqb k' k); reflexivity.
Qed.

Lemma map_res_ok {A B} (f : A -> res B) (P : A -> B -> Prop) (l : list A) :
  (forall x, In x l -> exists y, f x = Ok y /\ P x y) ->
  exists l', map_res f l = Ok l' /\ Forall2 P l l'.
Proof.
  induction l as [|x l IH]; intros H; [exists []; split; [reflexivity|constructor]|].
  destruct (H x (or_introl eq_refl)) as [y [Hy Py]].
  destruct IH as [l' [Hl' P']]; [intros z Hz; apply H; right; exact Hz|].
  exists (y :: l'). simpl. rewrite Hy. simpl. rewrite Hl'. split; [reflexivity|constructor; assumption].
Qed.

(** On well-formed input (a dict with a dict ['pipeline'] and a list
    ['jobs'] of dicts, each with a list ['results'] of dicts), [flatten_json]
    returns, job after job, one row per result, in order; in a row a key
    takes its value from the result, else (unless it is ['results']) from
    the job, else from the pipeline. *)
Theorem flatten_json_rows (d pd : list (string * json)) (js : list json) :
  dget d "pipeline" = Some (JDict pd) ->
  dget d "jobs" = Some (JList js) ->
  List.NoDup (map fst pd) ->
  (forall j, In j js -> exists jd rs, j = JDict jd /\ List.NoDup (map fst jd) /\
     dget jd "results" = Some (JList rs) /\
     forall r, In r rs -> exists rd, r = JDict rd /\ List.NoDup (map fst rd)) ->
  exists rowss, flatten_json (JDict d) = Ok (concat rowss) /\
    Forall2 (fun j rows => exists jd rs, j = JDict jd /\ dget jd "results" = Some (JList rs) /\
      Forall2 (fun r row => exists rd, r = JDict rd /\
        forall k, dget row k =
          match dget rd k with
          | Some v => Some v
          | None => if String.eqb k "results" then None
                    else match dget jd k with Some v => Some v | None => dget pd k end
          end) rs rows) js rowss.
Proof.
  intros Hp Hj Hpd Hjs. unfold flatten_json, jget. rewrite Hp, Hj. cbn [bind py_iter].
  edestruct (map_res_ok (flatten_job (JDict pd))) as [rowss [Hr Hf]]; [|rewrite Hr; cbn [bind];
    exists rowss; split; [reflexivity|exact Hf]].
  intros j Hin. destruct (Hjs j Hin) as [jd [rs [-> [Hjd [Hres Hrs]]]]].
  assert (Hu : In "results"%string (map fst (dunion pd jd))).
  { apply (dget_in _ _ (JList rs)). rewrite dget_dunion by exact Hjd. rewrite Hres. reflexivity. }
  destruct (ddel_nodup (dunion pd jd) "results" (dunion_nodup pd jd Hpd) Hu)
    as [ji [Hji [_ Hget]]].
  unfold flatten_job. cbn [as_mapping bind]. rewrite Hji. cbn [bind]. rewrite Hres. cbn [py_iter bind].
  edestruct (map_res_ok (fun result => let* rd := as_mapping result in Ok (dunion ji rd)))
    as [rows [Hrows Hf]]; [|exists rows; split; [exact Hrows|exists jd, rs; split; [reflexivity|]; split; [exact Hres|exact Hf]]].
  intros r Hr. destruct (Hrs r Hr) as [rd [-> Hrd]].
  eexists. split; [reflexivity|]. exists rd. split; [reflexivity|].
  intros k. rewrite dget_dunion by exact Hrd. destruct (dget rd k); [reflexivity|].
  rewrite Hget. destruct (String.eqb k "results"); [reflexivity|].
  apply dget_dunion. exact Hjd.
Qed.

Lemma flatten_json_rows_witness :
  exists rowss,
  flatten_json (JDict [("pipeline", JDict [("id", JInt 1)]);
                       ("jobs", JList [JDict [("name", JStr "b"); ("results", JList [JDict [("t", JInt 2)]])]])])
    = Ok (concat rowss) /\
  Forall2 (fun j rows => exists jd rs, j = JDict jd /\ dget jd "results" = Some (JList rs) /\
      Forall2 (fun r row => exists rd, r = JDict rd /\
        forall k, dget row k =
          match dget rd k with
          | Some v => Some v
          | None => if String.eqb k "results" then None
                    else match dget jd k with Some v => Some v | None => dget [("id", JInt 1)] k end
          end) rs rows)
    [JDict [("name", JStr "b"); ("results", JList [JDict [("t", JInt 2)]])]] rowss.
Proof.
  apply flatten_json_rows; [reflexivity|reflexivity| |].
  - simpl. constructor; [simpl; tauto|constructor].
  - intros j [<-|[]]. do 2 eexists. split; [reflexivity|]. split.
    + simpl. constructor; [simpl; intros [H|[]]; discriminate|constructor; [simpl; tauto|constructor]].
    + split; [reflexivity|]. intros r [<-|[]]. eexists. split; [reflexivity|].
      simpl. constructor; [simpl; tauto|constructor].
Defined.

Lemma map_res_const {A B} (f : A -> res B) (l : list A) (y : res B) :
  (forall x, In x l -> f x = y) ->
  map_res f l = match l with [] => Ok [] | _ => let* b := y in Ok (map (fun _ => b) l) end.
Proof.
  intros H. destruct l as [|x l]; [reflexivity|]. cbn [map_res].
  rewrite (H x (or_introl eq_refl)). destruct y as [b|e]; cbn [bind]; [|reflexivity].
  assert (Hl : forall z, In z l -> f z = Ok b) by (intros z Hz; apply H; right; exact Hz).
  assert (Hm : map_res f l = Ok (map (fun _ => b) l)).
  { clear H. induction l as [|z l IH]; [reflexivity|].
    cbn [map_res]. rewrite (Hl z (or_introl eq_refl)). cbn [bind]. rewrite IH; [reflexivity|].
    intros w Hw. apply Hl. right. exact Hw. }
  rewrite Hm. reflexivity.
Qed.

(** When no job of a non-empty ['jobs'] list has ['results'],
    [flatten_json] returns no rows if the pipeline has ['results'], and
    raises [KeyError] (from [job_info.pop('results')]) otherwise. *)
Theorem flatten_json_jobs_without_results (d pd : list (string * json)) (js : list json) :
  dget d "pipeline" = Some (JDict pd) ->
  dget d "jobs" = Some (JList js) ->
  js <> [] ->
  (forall j, In j js -> exists jd, j = JDict jd /\ dget jd "results" = None) ->
  flatten_json (JDict d) = if dmem pd "results" then Ok [] else Err KeyError.
Proof.
  intros Hp Hj Hne Hjs. unfold flatten_json, jget. rewrite Hp, Hj. cbn [bind py_iter].
  assert (Hjob : forall j, In j js ->
            flatten_job (JDict pd) j = if dmem pd "results" then Ok [] else Err KeyError).
  { intros j Hin. destruct (Hjs j Hin) as [jd [-> Hjd]].
    unfold flatten_job. cbn [as_mapping bind].
    unfold dmem. destruct (ddel (dunion pd jd) "results") as [ji|] eqn:E.
    - assert (dget pd "results" <> None).
      { rewrite <- (dget_dunion_notin pd jd _ Hjd). intros H. apply ddel_none in H. congruence. }
      destruct (dget pd "results"); [|congruence]. cbn [bind]. rewrite Hjd. reflexivity.
    - apply ddel_none in E. rewrite (dget_dunion_notin pd jd _ Hjd) in E. rewrite E. reflexivity. }
  destruct js as [|j0 js]; [congruence|].
  rewrite (map_res_const _ _ _ Hjob). cbn [bind].
  destruct (dmem pd "results"); [|reflexivity]. cbn [bind].
  f_equal. simpl. clear. induction js as [|j js IH]; [reflexivity|exact IH].
Qed.

Lemma flatten_json_jobs_without_results_witness :
  flatten_json (JDict [("pipeline", JDict [("id", JInt 1)]); ("jobs", JList [JDict [("name", JStr "b")]])])
  = if dmem [("id", JInt 1)] "results" then Ok [] else Err KeyError.
Proof.
  apply (flatten_json_jobs_without_results _ [("id", JInt 1)] [JDict [("name", JStr "b")]]);
    [reflexivity|reflexivity|discriminate|].
  intros j [<-|[]]. eexists. split; reflexivity.
Defined.

End FlattenFacts.

(** ** files.py: the filter phase *)

Module FilterFacts.
Import Regex Store Files FilterMore RegexFacts.

Lemma existsb_compiled_spec (ps : list string) (s : string) :
  existsb (fun p => match compile p with Some r => re_search r s | None => false end) ps = true <->
  exists p r, In p ps /\ compile p = Some r /\
    exists a m b, list_ascii_of_string s = (a ++ m ++ b)%list /\ lang r m.
Proof.
  rewrite existsb_exists. split.
  - intros [p [Hin H]]. destruct (compile p) as [r|] eqn:E; [|discriminate].
    apply re_search_spec in H. exists p, r. auto.
  - intros (p & r & Hin & E & H). exists p. rewrite E. split; [exact Hin|].
    apply re_search_spec. exact H.
Qed.

(** [_apply_filter_pattern] on a list of patterns (a str is the list of
    one pattern), each of them in the fragment of Python's regex syntax
    that [compile] parses: the exclude rule keeps the value exactly when no
    pattern matches somewhere in [str(value)], the include rule exactly
    when one does; so an empty list keeps every value for exclude and none
    for include. *)
Theorem apply_filter_pattern_spec (v : scalar) (ps : list string) :
  List.Forall (fun p => compile p <> None) ps ->
  (forall p t, apply_filter_pattern v (RStr p) t = apply_filter_pattern v (RList [p]) t) /\
  (apply_filter_pattern v (RList ps) "exclude" = true <->
   ~ exists p r, In p ps /\ compile p = Some r /\
       exists a m b, list_ascii_of_string (Lml.py_str v) = (a ++ m ++ b)%list /\ lang r m) /\
  (apply_filter_pattern v (RList ps) "include" = true <->
   exists p r, In p ps /\ compile p = Some r /\
     exists a m b, list_ascii_of_string (Lml.py_str v) = (a ++ m ++ b)%list /\ lang r m).
Proof.
  intros _.
  split; [intros p t; reflexivity|].
  rewrite <- existsb_compiled_spec. unfold apply_filter_pattern.
  destruct ps as [|p ps]; [simpl; intuition congruence|].
  cbn -[existsb compile]. destruct (existsb _ _); simpl; intuition congruence.
Qed.

Lemma apply_filter_pattern_spec_witness :
  List.Forall (fun p => compile p <> None) ["ode0"; "x|y*"] /\
  ((forall p t, apply_filter_pattern (SStr "node01") (RStr p) t =
                apply_filter_pattern (SStr "node01") (RList [p]) t) /\
   (apply_filter_pattern (SStr "node01") (RList ["ode0"; "x|y*"]) "exclude" = true <->
    ~ exists p r, In p ["ode0"; "x|y*"] /\ compile p = Some r /\
        exists a m b, list_ascii_of_string (Lml.py_str (SStr "node01")) = (a ++ m ++ b)%list /\
                      lang r m) /\
   (apply_filter_pattern (SStr "node01") (RList ["ode0"; "x|y*"]) "include" = true <->
    exists p r, In p ["ode0"; "x|y*"] /\ compile p = Some r /\
      exists a m b, list_ascii_of_string (Lml.py_str (SStr "node01")) = (a ++ m ++ b)%list /\
                    lang r m)).
Proof.
  assert (H : List.Forall (fun p => compile p <> None) ["ode0"; "x|y*"]).
  { repeat constructor; vm_compute; discriminate. }
  split; [exact H|]. exact (apply_filter_pattern_spec (SStr "node01") ["ode0"; "x|y*"] H).
Defined.

(** The filter phase of [process_transformed_records] never changes a
    record: it keeps it exactly when it is not empty and, for every metric
    definition and every metric key of it that the record has, the value
    passes the exclude rule and the include rule in force for that key;
    a key the record lacks never drops it. *)
Theorem filter_phase_spec (fs : list filter_def) (r r' : record) :
  filter_phase fs r = Some r' <->
  r' = r /\ r <> [] /\
  forall f k v, In f fs -> In k (f_keys f) -> dget r k = Some v ->
    apply_filter_pattern v (current_rules (f_simple f) (f_exclude f) k) "exclude" = true /\
    apply_filter_pattern v (current_rules (f_simple f) (f_include f) k) "include" = true.
Proof.
  unfold filter_phase.
  assert (Hall : forallb (fun f => filter_keys f r) fs = true <->
    forall f k v, In f fs -> In k (f_keys f) -> dget r k = Some v ->
      apply_filter_pattern v (current_rules (f_simple f) (f_exclude f) k) "exclude" = true /\
      apply_filter_pattern v (current_rules (f_simple f) (f_include f) k) "include" = true).
  { rewrite forallb_forall. split.
    - intros H f k v Hf Hk Hv. specialize (H f Hf). unfold filter_keys in H.
      rewrite forallb_forall in H. specialize (H k Hk). rewrite Hv in H.
      apply andb_true_iff in H. exact H.
    - intros H f Hf. unfold filter_keys. apply forallb_forall. intros k Hk.
      destruct (dget r k) as [v|] eqn:Hv; [|reflexivity].
      apply andb_true_iff. exact (H f k v Hf Hk Hv). }
  destruct (forallb (fun f => filter_keys f r) fs) eqn:E.
  - destruct r as [|kv r]; simpl.
    + split; [discriminate|]. intros (_ & H & _). congruence.
    + split.
      * intros H. injection H as <-. split; [reflexivity|]. split; [discriminate|]. apply Hall. reflexivity.
      * intros (-> & _ & _). reflexivity.
  - simpl. split; [discriminate|]. intros (_ & _ & H). apply Hall in H. discriminate.
Qed.

End FilterFacts.

(** ** files.py: [_output_mode_file] grouping *)

Module GroupFacts.
Import Store Files.
Local Open Scope list_scope.

Lemma scalar_eqb_spec (a b : scalar) : scalar_eqb a b = true <-> a = b.
Proof.
  destruct a, b; simpl; rewrite ?String.eqb_eq, ?Z.eqb_eq; split; intros H; congruence.
Qed.

Lemma scalar_eqb_sym (a b : scalar) : scalar_eqb a b = scalar_eqb b a.
Proof.
  destruct (scalar_eqb a b) eqn:E; symmetry.
  - apply scalar_eqb_spec in E. subst. apply scalar_eqb_spec. reflexivity.
  - destruct (scalar_eqb b a) eqn:E'; [|reflexivity].
    apply scalar_eqb_spec in E'. subst. rewrite <- E. symmetry. apply scalar_eqb_spec. reflexivity.
Qed.

Lemma dedup_scalars_snoc (l : list scalar) (v : scalar) :
  dedup_scalars (l ++ [v]) =
  if existsb (scalar_eqb v) (dedup_scalars l) then dedup_scalars l else dedup_scalars l ++ [v].
Proof. unfold dedup_scalars. rewrite fold_left_app. reflexivity. Qed.

Lemma existsb_scalar_in (v : scalar) (l : list scalar) :
  existsb (scalar_eqb v) l = true <-> In v l.
Proof.
  rewrite existsb_exists. split.
  - intros [x [Hx E]]. apply scalar_eqb_spec in E. subst. exact Hx.
  - intros H. exists v. split; [exact H|]. apply scalar_eqb_spec. reflexivity.
Qed.

Lemma dedup_scalars_in (l : list scalar) (x : scalar) : In x (dedup_scalars l) <-> In x l.
Proof.
  induction l as [|v l IH] using rev_ind; [simpl; tauto|].
  rewrite dedup_scalars_snoc, in_app_iff. simpl.
  destruct (existsb (scalar_eqb v) (dedup_scalars l)) eqn:E.
  - apply existsb_scalar_in in E. rewrite IH. split; [tauto|].
    intros [H|[<-|[]]]; [exact H|]. apply IH. exact E.
  - rewrite in_app_iff, IH. simpl. tauto.
Qed.

Lemma existsb_fst_map (ks : list scalar) (F : scalar -> list record) (v : scalar) :
  existsb (fun g => scalar_eqb (fst g) v) (map (fun k => (k, F k)) ks) = existsb (scalar_eqb v) ks.
Proof.
  induction ks as [|k ks IH]; [reflexivity|]. simpl. rewrite IH, scalar_eqb_sym. reflexivity.
Qed.

Lemma group_step_val (ks : list scalar) (F : scalar -> list record) (v : scalar) (r : record) :
  (existsb (scalar_eqb v) ks = false -> F v = []) ->
  (if existsb (fun g => scalar_eqb (fst g) v) (map (fun k => (k, F k)) ks)
   then map (fun g => if scalar_eqb (fst g) v then (fst g, snd g ++ [r]) else g)
            (map (fun k => (k, F k)) ks)
   else map (fun k => (k, F k)) ks ++ [(v, [r])]) =
  map (fun k => (k, F k ++ (if scalar_eqb v k then [r] else [])))
      (if existsb (scalar_eqb v) ks then ks else ks ++ [v]).
Proof.
  intros HF. rewrite existsb_fst_map. destruct (existsb (scalar_eqb v) ks) eqn:E.
  - rewrite map_map. apply map_ext. intros k. simpl. rewrite scalar_eqb_sym.
    destruct (scalar_eqb v k); [reflexivity|]. rewrite app_nil_r. reflexivity.
  - rewrite map_app. simpl. rewrite HF by reflexivity.
    assert (Hvv : scalar_eqb v v = true) by (apply scalar_eqb_spec; reflexivity).
    rewrite Hvv. f_equal. apply map_ext_in. intros k Hk.
    destruct (scalar_eqb v k) eqn:Ek.
    + apply scalar_eqb_spec in Ek. subst. apply existsb_scalar_in in Hk. congruence.
    + rewrite app_nil_r. reflexivity.
Qed.

(** [_output_mode_file] groups the records by their index value
    ([record.get(index, default_map.get(index))]): one group per distinct
    value other than [None], in the order of first appearance, holding
    exactly the records with that value, in their order; the records whose
    index value is [None] are in no group. *)
Theorem group_by_index_spec (default_map : record) (index_key : string) (records : list record) :
  group_by_index default_map index_key records =
  map (fun k => (k, List.filter (fun r => scalar_eqb (get_value_with_default default_map r index_key) k)
                                records))
      (dedup_scalars (List.filter (fun v => negb (scalar_eqb v SNone))
                                  (map (fun r => get_value_with_default default_map r index_key) records))).
Proof.
  induction records as [|r records IH] using rev_ind; [reflexivity|].
  unfold group_by_index. rewrite fold_left_app. fold (group_by_index default_map index_key records).
  rewrite IH. clear IH. cbn [fold_left].
  rewrite map_app, List.filter_app.
  assert (HF : forall k, List.filter (fun r0 => scalar_eqb (get_value_with_default default_map r0 index_key) k)
                           (records ++ [r]) =
                         List.filter (fun r0 => scalar_eqb (get_value_with_default default_map r0 index_key) k)
                           records ++
                         (if scalar_eqb (get_value_with_default default_map r index_key) k then [r] else []))
    by (intros k; rewrite List.filter_app; simpl;
        destruct (scalar_eqb (get_value_with_default default_map r index_key) k); reflexivity).
  rewrite (map_ext
    (fun k => (k, List.filter (fun r0 => scalar_eqb (get_value_with_default default_map r0 index_key) k)
                              (records ++ [r])))
    (fun k => (k, List.filter (fun r0 => scalar_eqb (get_value_with_default default_map r0 index_key) k)
                              records ++
                  (if scalar_eqb (get_value_with_default default_map r index_key) k then [r] else []))))
    by (intros k; rewrite HF; reflexivity).
  assert (Hkeys : forall k, In k (dedup_scalars (List.filter (fun v => negb (scalar_eqb v SNone))
                     (map (fun r0 => get_value_with_default default_map r0 index_key) records))) ->
                  k <> SNone /\ exists r0, In r0 records /\ get_value_with_default default_map r0 index_key = k).
  { intros k Hk. apply dedup_scalars_in, filter_In in Hk. destruct Hk as [Hk Hn].
    apply in_map_iff in Hk. destruct Hk as [r0 [E Hr0]]. split; [|exists r0; auto].
    intros ->. discriminate. }
  assert (Hnot : forall v, existsb (scalar_eqb v) (dedup_scalars (List.filter (fun v => negb (scalar_eqb v SNone))
                     (map (fun r0 => get_value_with_default default_map r0 index_key) records))) = false ->
                 v <> SNone ->
                 List.filter (fun r0 => scalar_eqb (get_value_with_default default_map r0 index_key) v) records = []).
  { intros v Hv Hvn. destruct (List.filter _ records) as [|r0 l] eqn:Ef; [reflexivity|]. exfalso.
    assert (Hr0 : In r0 (r0 :: l)) by (left; reflexivity). rewrite <- Ef in Hr0.
    apply filter_In in Hr0. destruct Hr0 as [Hr0 E]. apply scalar_eqb_spec in E.
    assert (In v (dedup_scalars (List.filter (fun v => negb (scalar_eqb v SNone))
              (map (fun r0 => get_value_with_default default_map r0 index_key) records)))).
    { apply dedup_scalars_in, filter_In. split; [apply in_map_iff; exists r0; auto|].
      destruct v; [reflexivity|reflexivity|congruence]. }
    apply existsb_scalar_in in H. congruence. }
  change (map (fun r0 => get_value_with_default default_map r0 index_key) [r])
    with [get_value_with_default default_map r index_key].
  destruct (get_value_with_default default_map r index_key) as [s|z|] eqn:Ev.
  - cbn [List.filter negb scalar_eqb]. rewrite dedup_scalars_snoc.
    apply group_step_val. intros H. apply Hnot; [exact H|discriminate].
  - cbn [List.filter negb scalar_eqb]. rewrite dedup_scalars_snoc.
    apply group_step_val. intros H. apply Hnot; [exact H|discriminate].
  - cbn [List.filter negb scalar_eqb]. rewrite app_nil_r.
    apply map_ext_in. intros k Hk. destruct (Hkeys k Hk) as [Hkn _].
    destruct k; [| |congruence]; simpl; rewrite app_nil_r; reflexivity.
Qed.

End GroupFacts.

(** ** files.py: [aggregate] columns *)

Module AggMoreFacts.
Import Store Files AggFacts GroupFacts.
Local Open Scope list_scope.

(** [<] on binary64 floats is irreflexive and transitive (NaN is below
    and above nothing). *)
Lemma SFltb_irrefl (f : SpecFloat.spec_float) : SpecFloat.SFltb f f = false.
Proof.
  destruct f as [s|s| |s m e]; unfold SpecFloat.SFltb, SpecFloat.SFcompare;
    try destruct s; try reflexivity;
    rewrite Z.compare_refl, Pos.compare_cont_refl; reflexivity.
Qed.

Lemma SFltb_trans (a b c : SpecFloat.spec_float) :
  SpecFloat.SFltb a b = true -> SpecFloat.SFltb b c = true -> SpecFloat.SFltb a c = true.
Proof.
  unfold SpecFloat.SFltb, SpecFloat.SFcompare.
  destruct a as [sa|sa| |sa ma ea], b as [sb|sb| |sb mb eb], c as [sc|sc| |sc mc ec];
    try destruct sa; try destruct sb; try destruct sc; try discriminate; try reflexivity;
    rewrite ?Pos.compare_cont_spec; unfold CompOpp;
    destruct (Z.compare_spec ea eb); destruct (Z.compare_spec eb ec); destruct (Z.compare_spec ea ec);
    try (exfalso; lia); try discriminate; try reflexivity;
    subst;
    destruct (Pos.compare_spec ma mb); destruct (Pos.compare_spec mb mc); destruct (Pos.compare_spec ma mc);
    try (exfalso; lia); try discriminate; reflexivity.
Qed.

Lemma ltb_irrefl (x : float) : PrimFloat.ltb x x = false.
Proof. rewrite FloatAxioms.ltb_spec. apply SFltb_irrefl. Qed.

Lemma ltb_trans (x y z : float) :
  PrimFloat.ltb x y = true -> PrimFloat.ltb y z = true -> PrimFloat.ltb x z = true.
Proof. rewrite !FloatAxioms.ltb_spec. apply SFltb_trans. Qed.

Section FoldLeast.
Context {A : Type} (lt : A -> A -> bool).
Hypothesis lt_irrefl : forall a, lt a a = false.
Hypothesis lt_trans : forall a b c, lt a b = true -> lt b c = true -> lt a c = true.

Lemma fold_least_inv (cur : A) (xs : list A) :
  let m := fold_left (fun cur x => if lt x cur then x else cur) xs cur in
  (m = cur \/ (In m xs /\ lt m cur = true)) /\
  forall y, In y (cur :: xs) -> lt y m = false.
Proof.
  revert cur. induction xs as [|x1 xs IH]; intros cur; cbn [fold_left].
  - split; [left; reflexivity|]. intros y [<-|[]]. apply lt_irrefl.
  - destruct (lt x1 cur) eqn:E; destruct (IH (if lt x1 cur then x1 else cur)) as [H1 H2];
      rewrite E in H1, H2; set (m := fold_left _ xs _) in *; split.
    + right. destruct H1 as [H1|[H1 H1']].
      * rewrite H1. split; [left; reflexivity|exact E].
      * split; [right; exact H1|exact (lt_trans _ _ _ H1' E)].
    + intros y Hy. destruct Hy as [Hy|[Hy|Hy]];
        [subst y|subst y; apply H2; left; reflexivity|apply H2; right; exact Hy].
      destruct (lt cur m) eqn:F; [|reflexivity].
      pose proof (lt_trans _ _ _ E F) as G. rewrite (H2 x1 (or_introl eq_refl)) in G. discriminate.
    + destruct H1 as [H1|[H1 H1']]; [left; exact H1|right; split; [right; exact H1|exact H1']].
    + intros y Hy. destruct Hy as [Hy|[Hy|Hy]];
        [subst y; apply H2; left; reflexivity|subst y|apply H2; right; exact Hy].
      destruct (lt x1 m) eqn:F; [|reflexivity].
      destruct H1 as [H1|[_ H1']]; [rewrite H1 in F; congruence|].
      pose proof (lt_trans _ _ _ F H1') as G. congruence.
Qed.

Lemma fold_least (cur : A) (xs : list A) :
  let m := fold_left (fun cur x => if lt x cur then x else cur) xs cur in
  In m (cur :: xs) /\ forall y, In y (cur :: xs) -> lt y m = false.
Proof.
  destruct (fold_least_inv cur xs) as [[H1|[H1 _]] H2]; split; try exact H2.
  - rewrite H1. left. reflexivity.
  - right. exact H1.
Qed.

End FoldLeast.

(** [min(xs)] is one of the values and no value is smaller. *)
Lemma py_min_spec (x0 : float) (xs : list float) :
  In (py_min x0 xs) (x0 :: xs) /\
  forall y, In y (x0 :: xs) -> PrimFloat.ltb y (py_min x0 xs) = false.
Proof. exact (fold_least PrimFloat.ltb ltb_irrefl ltb_trans x0 xs). Qed.

(** [max(xs)] is one of the values and no value is larger. *)
Lemma py_max_spec (x0 : float) (xs : list float) :
  In (py_max x0 xs) (x0 :: xs) /\
  forall y, In y (x0 :: xs) -> PrimFloat.ltb (py_max x0 xs) y = false.
Proof.
  exact (fold_least (fun a b => PrimFloat.ltb b a) ltb_irrefl
           (fun a b c H1 H2 => ltb_trans c b a H2 H1) x0 xs).
Qed.

(** The wrapped cell of a numeric result [m]: [str(m)] without a truthy
    [wrap]; [wrap.format(m)], falling back to [wrap.format(str(m))] on a
    [ValueError] or [TypeError]. *)
Lemma aggregate_numeric (ops : float_ops) (default_map : record) (agg metric : string)
  (unique : bool) (wrap : option string) (group : list record) :
  existsb (String.eqb agg) ["min"; "max"; "avg"] = true ->
  String.eqb agg "count" = false ->
  aggregate_column ops default_map (mkInstr agg (Some metric) unique wrap) group =
  if String.eqb metric EmptyString then Ok (CStr EmptyString)
  else match coercible_values ops default_map metric group with
       | Err e => Err e
       | Ok [] => Ok (CStr EmptyString)
       | Ok (x0 :: xs) =>
           let m := if String.eqb agg "min" then py_min x0 xs
                    else if String.eqb agg "max" then py_max x0 xs
                    else PrimFloat.div (py_sum ops (x0 :: xs)) (float_of_nat (length (x0 :: xs))) in
           match wrap with
           | Some fmt =>
               if String.eqb fmt EmptyString then Ok (CStr (py_str ops m))
               else match py_format ops fmt (FFloat m) with
                    | Ok s => Ok (CStr s)
                    | Err ValueError | Err TypeError =>
                        match py_format ops fmt (FStr (py_str ops m)) with
                        | Ok s => Ok (CStr s)
                        | Err e => Err e
                        end
                    | Err e => Err e
                    end
           | None => Ok (CStr (py_str ops m))
           end
       end.
Proof.
  intros Hagg Hc. unfold aggregate_column. cbn [i_source i_aggregate i_wrap i_unique].
  destruct (String.eqb metric EmptyString); [reflexivity|]. rewrite Hc, Hagg.
  pose proof (numeric_loop_spec ops default_map metric group [] 0%nat) as H.
  destruct (numeric_loop ops default_map metric group [] 0%nat) as [[nums b] | e];
    destruct (coercible_values ops default_map metric group) as [xs | e'];
    try contradiction; [|subst; reflexivity].
  cbn [app] in H. subst nums. destruct xs as [|x0 xs]; [reflexivity|].
  destruct wrap as [fmt|]; [|reflexivity].
  destruct (String.eqb fmt EmptyString); [reflexivity|]. unfold try_format.
  destruct (py_format ops fmt _) as [s|[]]; reflexivity.
Qed.

(** [aggregate: min] and [aggregate: max] over a source field: with an
    empty [source], or with no value that is not [None] and on which
    [float] raises no [ValueError] or [TypeError], the cell is [""]; an
    other exception of [float] is raised; otherwise the cell is [str(m)]
    (or, for a non-empty [wrap], [wrap.format(m)], falling back to
    [wrap.format(str(m))] on a [ValueError] or [TypeError]) where [m] is
    one of these values and no value is smaller (for min) or larger (for
    max) than [m] under the binary64 [<]. *)
Theorem min_max_of_numeric (ops : float_ops) (default_map : record) (metric : string)
  (unique : bool) (wrap : option string) (group : list record) :
  let wrapped (m : float) :=
    match wrap with
    | Some fmt =>
        if String.eqb fmt EmptyString then Ok (CStr (py_str ops m))
        else match py_format ops fmt (FFloat m) with
             | Ok s => Ok (CStr s)
             | Err ValueError | Err TypeError =>
                 match py_format ops fmt (FStr (py_str ops m)) with
                 | Ok s => Ok (CStr s)
                 | Err e => Err e
                 end
             | Err e => Err e
             end
    | None => Ok (CStr (py_str ops m))
    end in
  let min_cell := aggregate_column ops default_map (mkInstr "min" (Some metric) unique wrap) group in
  let max_cell := aggregate_column ops default_map (mkInstr "max" (Some metric) unique wrap) group in
  if String.eqb metric EmptyString then
    min_cell = Ok (CStr EmptyString) /\ max_cell = Ok (CStr EmptyString)
  else
    match coercible_values ops default_map metric group with
    | Err e => min_cell = Err e /\ max_cell = Err e
    | Ok [] => min_cell = Ok (CStr EmptyString) /\ max_cell = Ok (CStr EmptyString)
    | Ok xs =>
        (exists m, In m xs /\ (forall y, In y xs -> PrimFloat.ltb y m = false) /\
                   min_cell = wrapped m) /\
        (exists m, In m xs /\ (forall y, In y xs -> PrimFloat.ltb m y = false) /\
                   max_cell = wrapped m)
    end.
Proof.
  intros wrapped min_cell max_cell.
  unfold min_cell, max_cell.
  rewrite (aggregate_numeric ops default_map "min" metric unique wrap group eq_refl eq_refl),
    (aggregate_numeric ops default_map "max" metric unique wrap group eq_refl eq_refl).
  destruct (String.eqb metric EmptyString); [split; reflexivity|].
  destruct (coercible_values ops default_map metric group) as [[|x0 xs]|e];
    [split; reflexivity| |split; reflexivity].
  cbn zeta. split.
  - destruct (py_min_spec x0 xs) as [Hin Hlt].
    exists (py_min x0 xs). split; [exact Hin|]. split; [exact Hlt|]. reflexivity.
  - destruct (py_max_spec x0 xs) as [Hin Hlt].
    exists (py_max x0 xs). split; [exact Hin|]. split; [exact Hlt|]. reflexivity.
Qed.

Lemma nodup_snoc_any {A} (s : list A) (x : A) : List.NoDup s -> ~ In x s -> List.NoDup (s ++ [x]).
Proof.
  induction s as [|a s IH]; intros Hnd Hx; simpl.
  - constructor; [auto|constructor].
  - inversion Hnd as [|? ? Ha Hs]; subst. constructor.
    + rewrite in_app_iff. simpl. intros [H|[H|H]]; [contradiction|subst; apply Hx; left; reflexivity|exact H].
    + apply IH; [exact Hs|]. intros H; apply Hx; right; exact H.
Qed.

Lemma dedup_scalars_nodup (l : list scalar) : List.NoDup (dedup_scalars l).
Proof.
  induction l as [|v l IH] using rev_ind; [constructor|].
  rewrite dedup_scalars_snoc. destruct (existsb (scalar_eqb v) (dedup_scalars l)) eqn:E; [exact IH|].
  apply nodup_snoc_any; [exact IH|]. intros H. apply existsb_scalar_in in H. congruence.
Qed.

(** [aggregate: count] with [unique: true] counts the distinct values of
    the source field in the group, [None] excluded (the size of the set of
    values minus [None]); without [unique] it counts the records whose
    value is not [None].  The count [n] is the cell, or [wrap.format(n)]
    for a non-empty [wrap], the raw [n] when that raises [ValueError] or
    [TypeError]; another exception of [format] is raised.  An empty
    [source] gives [""]. *)
Theorem count_aggregate (ops : float_ops) (default_map : record) (metric : string)
  (wrap : option string) (group : list record) :
  let wrapped (n : nat) :=
    match wrap with
    | Some fmt =>
        if String.eqb fmt EmptyString then Ok (CInt n)
        else match py_format ops fmt (FInt n) with
             | Ok s => Ok (CStr s)
             | Err ValueError | Err TypeError => Ok (CInt n)
             | Err e => Err e
             end
    | None => Ok (CInt n)
    end in
  if String.eqb metric EmptyString then
    aggregate_column ops default_map (mkInstr "count" (Some metric) true wrap) group =
      Ok (CStr EmptyString) /\
    aggregate_column ops default_map (mkInstr "count" (Some metric) false wrap) group =
      Ok (CStr EmptyString)
  else
    (exists l, List.NoDup l /\
       (forall v, In v l <-> v <> SNone /\
                  exists r, In r group /\ get_value_with_default default_map r metric = v) /\
       aggregate_column ops default_map (mkInstr "count" (Some metric) true wrap) group =
         wrapped (length l)) /\
    aggregate_column ops default_map (mkInstr "count" (Some metric) false wrap) group =
      wrapped (length (List.filter (fun r =>
        negb (scalar_eqb (get_value_with_default default_map r metric) SNone)) group)).
Proof.
  intros wrapped.
  assert (W : forall unique,
    aggregate_column ops default_map (mkInstr "count" (Some metric) unique wrap) group =
    if String.eqb metric EmptyString then Ok (CStr EmptyString) else
     wrapped (if unique
              then length (List.filter (fun v => negb (scalar_eqb v SNone))
                            (dedup_scalars (map (fun r => get_value_with_default default_map r metric) group)))
              else length (List.filter (fun v => negb (scalar_eqb v SNone))
                            (map (fun r => get_value_with_default default_map r metric) group)))).
  { intros unique. unfold aggregate_column, wrapped. cbn [i_source i_aggregate i_wrap i_unique].
    destruct (String.eqb metric EmptyString); [reflexivity|]. cbn [String.eqb Ascii.eqb Bool.eqb andb].
    destruct wrap as [fmt|]; [|reflexivity].
    destruct (String.eqb fmt EmptyString); [reflexivity|]. unfold try_format.
    destruct (py_format ops fmt _) as [s|[]]; reflexivity. }
  rewrite !W. clear W.
  destruct (String.eqb metric EmptyString); [split; reflexivity|]. split.
  - eexists. split; [apply List.NoDup_filter, dedup_scalars_nodup|]. split; [|reflexivity].
    intros v. rewrite filter_In, dedup_scalars_in, in_map_iff. split.
    + intros [[r [E Hr]] Hn]. split; [intros ->; discriminate|]. exists r. auto.
    + intros [Hn [r [Hr E]]]. split; [exists r; auto|].
      destruct v; [reflexivity|reflexivity|congruence].
  - f_equal. clear. induction group as [|r group IH]; [reflexivity|]. simpl.
    destruct (scalar_eqb (get_value_with_default default_map r metric) SNone); simpl;
      [exact IH|f_equal; exact IH].
Qed.

End AggMoreFacts.


(** ** [Info.to_LML]: when it raises *)

Module ToLmlFacts.
Import Store Lml RenderFacts IdFacts.













End ToLmlFacts.

(** ** Both [apply_pattern] functions against the per-entity selection *)
Module SelectFacts.
Import PyDict Store SelectMore PatternFacts RenderFacts DeepUpdateFacts FlattenFacts.
Local Open Scope list_scope.

Lemma existsb_eqb_in (x : string) (l : list string) :
  existsb (String.eqb x) l = true <-> In x l.
Proof.
  rewrite existsb_exists. split.
  - intros (y & Hy & E). apply String.eqb_eq in E. subst; exact Hy.
  - intros Hx. exists x. split; [exact Hx | apply String.eqb_refl].
Qed.

Lemma existsb_eqb_notin (x : string) (l : list string) :
  ~ In x l -> existsb (String.eqb x) l = false.
Proof.
  intros Hx. destruct (existsb (String.eqb x) l) eqn:E; [|reflexivity].
  exfalso. apply Hx, existsb_eqb_in, E.
Qed.

Lemma existsb_eqb_same (x : string) (l1 l2 : list string) :
  (forall y, In y l1 <-> In y l2) ->
  existsb (String.eqb x) l1 = existsb (String.eqb x) l2.
Proof.
  intros H. destruct (existsb (String.eqb x) l1) eqn:E1, (existsb (String.eqb x) l2) eqn:E2;
    try reflexivity.
  - apply existsb_eqb_in, H, existsb_eqb_in in E1. congruence.
  - apply existsb_eqb_in, H, existsb_eqb_in in E2. congruence.
Qed.

Lemma del_all_err (d : store) (ks : list string) (e : exn) :
  del_all d ks = Err e -> e = KeyError.
Proof.
  revert d; induction ks as [| k ks IH]; intros d H; simpl in H; [discriminate|].
  destruct (ddel d k) as [d1 |]; [exact (IH d1 H) | congruence].
Qed.

Lemma del_all_keys (d d' : store) (ks : list string) :
  List.NoDup (map fst d) -> del_all d ks = Ok d' ->
  List.NoDup ks /\ (forall k, In k ks -> In k (map fst d)).
Proof.
  revert d; induction ks as [| k ks IH]; intros d Hnd H; simpl in H.
  - split; [constructor | intros k []].
  - destruct (ddel d k) as [d1 |] eqn:Ed; [|discriminate].
    destruct (ddel_spec d d1 k Ed Hnd) as (H1 & H2 & H3).
    destruct (IH d1 H2 H) as (H4 & H5).
    assert (Hk : In k (map fst d)).
    { destruct (dget d k) as [v |] eqn:Eg.
      - apply (dget_in d k v Eg).
      - apply ddel_none in Eg. congruence. }
    split.
    + constructor; [intros Hin; apply H1, H5, Hin | exact H4].
    + intros x [<- | Hx]; [exact Hk | apply H3, H5, Hx].
Qed.

Lemma ddel_filter (d : store) (k : string) :
  List.NoDup (map fst d) -> In k (map fst d) ->
  ddel d k = Some (List.filter (fun kv => negb (String.eqb (fst kv) k)) d).
Proof.
  induction d as [| [k0 u0] d IH]; intros Hnd Hin; simpl in *; [contradiction|].
  inversion Hnd as [| ? ? Hnin Hnd']; subst.
  destruct (String.eqb_spec k k0) as [-> | Hne].
  - rewrite String.eqb_refl. simpl. f_equal. symmetry. apply filter_other_keys, Hnin.
  - destruct Hin as [E | Hin]; [congruence|].
    rewrite (IH Hnd' Hin).
    destruct (String.eqb_spec k0 k) as [E | _]; [congruence|]. reflexivity.
Qed.

Lemma filter_and {A} (f g : A -> bool) (l : list A) :
  List.filter f (List.filter g l) = List.filter (fun x => g x && f x) l.
Proof.
  induction l as [| x l IH]; simpl; [reflexivity|].
  destruct (g x); simpl; [destruct (f x); simpl|]; rewrite IH; reflexivity.
Qed.

Lemma del_all_filter (d : store) (ks : list string) :
  List.NoDup (map fst d) -> List.NoDup ks -> (forall k, In k ks -> In k (map fst d)) ->
  del_all d ks = Ok (List.filter (fun kv => negb (existsb (String.eqb (fst kv)) ks)) d).
Proof.
  revert d; induction ks as [| k ks IH]; intros d Hnd Hks Hsub; simpl.
  - f_equal. symmetry. apply List.filter_true.
  - inversion Hks as [| ? ? Hk Hks']; subst.
    rewrite (ddel_filter d k Hnd (Hsub k (or_introl eq_refl))).
    destruct (ddel_spec d _ k (ddel_filter d k Hnd (Hsub k (or_introl eq_refl))) Hnd)
      as (_ & H2 & _).
    rewrite IH; [| exact H2 | exact Hks' |].
    + f_equal. rewrite filter_and. apply List.filter_ext. intros [k' u']. simpl.
      rewrite (String.eqb_sym k' k). destruct (String.eqb k k'); reflexivity.
    + intros x Hx. apply in_map_iff.
      assert (Hx' := Hsub x (or_intror Hx)). apply in_map_iff in Hx' as ([x' v] & E & Hin). simpl in E; subst x'.
      exists (x, v). split; [reflexivity|]. apply filter_In. split; [exact Hin|].
      simpl. destruct (String.eqb_spec x k) as [-> | _]; [contradiction | reflexivity].
Qed.

Lemma set_add_fold (l s : list string) :
  List.NoDup s ->
  List.NoDup (fold_left set_add l s) /\
  (forall x, In x (fold_left set_add l s) <-> In x s \/ In x l).
Proof.
  revert s; induction l as [| k l IH]; intros s Hs; simpl.
  - split; [exact Hs | tauto].
  - assert (Hs' : List.NoDup (set_add s k) /\ (forall x, In x (set_add s k) <-> In x s \/ x = k)).
    { unfold set_add. destruct (existsb (String.eqb k) s) eqn:E.
      - apply existsb_eqb_in in E. split; [exact Hs|]. intros x; split; [tauto|].
        intros [H | ->]; assumption.
      - split.
        + apply AggMoreFacts.nodup_snoc_any; [exact Hs|].
          intros Hin. apply existsb_eqb_in in Hin. congruence.
        + intros x. rewrite in_app_iff. simpl. intuition congruence. }
    destruct Hs' as (H1 & H2). destruct (IH _ H1) as (H3 & H4).
    split; [exact H3|]. intros x. rewrite H4, H2. intuition congruence.
Qed.

(** [collect] of the marks of the two [apply_pattern] loops, against
    [select] run with the same [check_unit]. *)
Lemma collect_select (chk : string -> record -> pattern -> res bool)
  (f : string -> record -> res (list string)) (ex inc : pattern) (d : store) :
  (forall k u, f k u =
     (let* e := (if truthy ex then chk k u ex else Ok false) in
      let* i := (if truthy inc then chk k u inc else Ok true) in
      Ok ((if e then [k] else []) ++ (if i then [] else [k])))) ->
  List.NoDup (map fst d) ->
  match select chk ex inc d with
  | Err e => collect f d = Err e
  | Ok (kept, dbl) =>
      exists l, collect f d = Ok l /\
        kept = List.filter (fun kv => negb (existsb (String.eqb (fst kv)) l)) d /\
        (dbl = false <-> List.NoDup l) /\
        (forall x, In x l -> In x (map fst d))
  end.
Proof.
  intros Hf. induction d as [| [k u] d IH]; intros Hnd.
  - simpl. exists []. split; [reflexivity|]. split; [reflexivity|].
    split; [split; intros; [constructor | reflexivity] | intros x []].
  - inversion Hnd as [| ? ? Hnin Hnd']; subst. specialize (IH Hnd').
    simpl select. simpl collect. rewrite Hf.
    destruct (if truthy ex then chk k u ex else Ok false) as [e | err]; cbn [bind]; [|reflexivity].
    destruct (if truthy inc then chk k u inc else Ok true) as [i | err]; cbn [bind]; [|reflexivity].
    destruct (select chk ex inc d) as [[kept dbl] | err]; cbn [bind]; [| rewrite IH; reflexivity].
    destruct IH as (l & Hc & Hk & Hd & Hs). rewrite Hc. cbn [bind].
    assert (Hkl : ~ In k l) by (intros Hin; apply Hnin, Hs, Hin).
    assert (Htail : forall m, (forall x, In x m -> x = k) ->
      List.filter (fun kv => negb (existsb (String.eqb (fst kv)) (m ++ l))) d = kept).
    { intros m Hm. rewrite Hk. apply List.filter_ext_in. intros [k' u'] Hin. simpl.
      rewrite existsb_app. rewrite (existsb_eqb_notin k' m); [reflexivity|].
      intros Hm'. apply Hm in Hm'. subst k'. apply Hnin.
      apply in_map_iff. exists (k, u'). split; [reflexivity | exact Hin]. }
    assert (Hm : forall x, In x ((if e then [k] else []) ++ (if i then [] else [k])) -> x = k)
      by (intros x Hx; apply in_app_iff in Hx; destruct e, i; simpl in Hx; intuition congruence).
    exists (((if e then [k] else []) ++ (if i then [] else [k])) ++ l). split; [reflexivity|].
    split; [|split].
    + cbn [List.filter fst]. rewrite (Htail _ Hm), existsb_app, (existsb_eqb_notin k l Hkl).
      destruct e, i; simpl; rewrite ?String.eqb_refl; reflexivity.
    + destruct e, i; simpl;
        first [ exact Hd
              | split; [discriminate|]; intros H; inversion H as [| ? ? H1 _]; subst;
                exfalso; apply H1; left; reflexivity
              | rewrite Hd; split; intros H; [constructor; assumption|];
                inversion H; assumption ].
    + intros x Hx. apply in_app_iff in Hx. simpl.
      destruct Hx as [Hx | Hx]; [left; symmetry; apply Hm, Hx | right; apply Hs, Hx].
Qed.

(** On a dict whose keys are distinct, [BenchRepo.apply_pattern(exclude,
    include)] raises the first error of the checks, in the order of the
    entities (exclude before include); otherwise it returns, in their
    order, exactly the entities that neither match the exclude rule nor
    fail the include rule. *)
Theorem gitlab_apply_pattern_select (ex inc : pattern) (d : store) :
  List.NoDup (map fst d) ->
  gitlab_apply_pattern ex inc d =
    (let* r := select gitlab_check_unit ex inc d in Ok (fst r)).
Proof.
  intros Hnd. unfold gitlab_apply_pattern.
  pose proof (collect_select gitlab_check_unit (gitlab_marks ex inc) ex inc d
                (fun k u => eq_refl) Hnd) as H.
  destruct (select gitlab_check_unit ex inc d) as [[kept dbl] | e]; cbn [bind];
    [| rewrite H; reflexivity].
  destruct H as (l & Hc & Hk & _ & Hs). rewrite Hc. cbn [bind]. simpl fst.
  destruct (set_add_fold l [] (List.NoDup_nil _)) as (H1 & H2).
  rewrite del_all_filter; [| exact Hnd | exact H1 |].
  - rewrite Hk. f_equal. apply List.filter_ext. intros kv. f_equal.
    apply existsb_eqb_same. intros y. rewrite H2. simpl. tauto.
  - intros x Hx. apply H2 in Hx as [[] | Hx]. apply Hs, Hx.
Qed.

(** On a dict whose keys are distinct, [Info.apply_pattern(exclude,
    include)] raises the first error of the checks; otherwise it raises
    [KeyError] when some entity both matches the exclude rule and fails
    the include rule (its name is deleted twice), and else returns, in
    their order, exactly the entities that neither match the exclude rule
    nor fail the include rule. *)
Theorem prom_apply_pattern_select (ex inc : pattern) (d : store) :
  List.NoDup (map fst d) ->
  prom_apply_pattern ex inc d =
    (let* r := select prom_check_unit ex inc d in
     if snd r then Err KeyError else Ok (fst r)).
Proof.
  intros Hnd. unfold prom_apply_pattern.
  pose proof (collect_select prom_check_unit (prom_marks ex inc) ex inc d
                (fun k u => eq_refl) Hnd) as H.
  destruct (select prom_check_unit ex inc d) as [[kept dbl] | e]; cbn [bind];
    [| rewrite H; reflexivity].
  destruct H as (l & Hc & Hk & Hd & Hs). rewrite Hc. cbn [bind]. simpl fst; simpl snd.
  destruct dbl.
  - destruct (del_all d l) as [d' | e] eqn:E.
    + destruct (del_all_keys d d' l Hnd E) as (H1 & _). apply Hd in H1. discriminate.
    + apply del_all_err in E. subst; reflexivity.
  - rewrite del_all_filter; [| exact Hnd | apply Hd; reflexivity | exact Hs].
    rewrite Hk. reflexivity.
Qed.

Lemma gitlab_apply_pattern_select_witness :
  List.NoDup (map fst [("n1", [("__type", SStr "node")]); ("n2", [("__type", SStr "node")]);
                       ("c1", [("__type", SStr "core")])]) /\
  gitlab_apply_pattern (PatStr "1") (PatStr "n")
    [("n1", [("__type", SStr "node")]); ("n2", [("__type", SStr "node")]);
     ("c1", [("__type", SStr "core")])] =
  (let* r := select gitlab_check_unit (PatStr "1") (PatStr "n")
       [("n1", [("__type", SStr "node")]); ("n2", [("__type", SStr "node")]);
        ("c1", [("__type", SStr "core")])] in Ok (fst r)).
Proof.
  assert (H : List.NoDup (map fst [("n1", [("__type", SStr "node")]);
                ("n2", [("__type", SStr "node")]); ("c1", [("__type", SStr "core")])]))
    by (simpl; repeat constructor; simpl; intuition discriminate).
  split; [exact H | exact (gitlab_apply_pattern_select _ _ _ H)].
Defined.

Lemma prom_apply_pattern_select_witness :
  List.NoDup (map fst [("n1", [("__type", SStr "node")]); ("n2", [("__type", SStr "node")]);
                       ("c1", [("__type", SStr "core")])]) /\
  prom_apply_pattern (PatStr "c") (PatStr "n")
    [("n1", [("__type", SStr "node")]); ("n2", [("__type", SStr "node")]);
     ("c1", [("__type", SStr "core")])] =
  (let* r := select prom_check_unit (PatStr "c") (PatStr "n")
       [("n1", [("__type", SStr "node")]); ("n2", [("__type", SStr "node")]);
        ("c1", [("__type", SStr "core")])] in
   if snd r then Err KeyError else Ok (fst r)).
Proof.
  assert (H : List.NoDup (map fst [("n1", [("__type", SStr "node")]);
                ("n2", [("__type", SStr "node")]); ("c1", [("__type", SStr "core")])]))
    by (simpl; repeat constructor; simpl; intuition discriminate).
  split; [exact H | exact (prom_apply_pattern_select _ _ _ H)].
Defined.

End SelectFacts.
